(** * Vehicle_Optimal_Control: the discrete-time vehicle dynamics

    A shallow embedding of [ProjectVersion1/vehicle_dynamics.py].  The
    module holds the constants of the model and one function,
    [dynamics(xx, uu)], which returns the forward-Euler next state together
    with the two gradient matrices [fx] and [fu].

    The function is written once, over an interface of scalar
    operations, and read at two number systems:
    - the real numbers, where the formulas of the model are equations
      between reals;
    - IEEE 754 binary64 as specified by [SpecFloat], the arithmetic
      numpy's float64 performs, with the libm functions [np.sin],
      [np.cos] and the power [** 2] left as parameters.

    What the body does with its arrays (which entry is written where,
    what is never written) is proved for every arithmetic.  Equations of
    the vehicle model, derivatives and the translation of the position
    are proved over the reals.  The behaviour at the singularity
    [x[3] = 0], where the reals have nothing to say, is proved in
    binary64.  What a call does to the arrays around it is proved on a
    heap of array buffers, where the body runs statement by statement. *)

From Stdlib Require Import ZArith QArith Reals Qreals Lra.
From Stdlib Require Import SpecFloat.
From stdpp Require Import base option list.

(** ** Scalar arithmetic *)

(** What the body of [dynamics] asks of its numbers. *)
Class Scalar (F : Type) := {
  of_int : Z -> F;            (* a Python [int] meeting a float *)
  of_lit : Q -> F;            (* a decimal float literal *)
  fadd : F -> F -> F;
  fsub : F -> F -> F;
  fmul : F -> F -> F;
  fdiv : F -> F -> F;
  fneg : F -> F;
  fsqr : F -> F;              (* [x ** 2] *)
  fsin : F -> F;              (* [np.sin] *)
  fcos : F -> F               (* [np.cos] *)
}.

(** Python's precedences: unary minus binds tighter than [*] and [/],
    which associate to the left. *)
Declare Scope num_scope.
Delimit Scope num_scope with num.
Notation "x + y" := (fadd x y) : num_scope.
Notation "x - y" := (fsub x y) : num_scope.
Notation "x * y" := (fmul x y) : num_scope.
Notation "x / y" := (fdiv x y) : num_scope.
Notation "- x" := (fneg x) : num_scope.
Notation "0" := (of_int 0%Z) : num_scope.
Notation "1" := (of_int 1%Z) : num_scope.

(** The reals. *)
#[export] Instance R_scalar : Scalar R := {|
  of_int := IZR;
  of_lit := Q2R;
  fadd := Rplus;
  fsub := Rminus;
  fmul := Rmult;
  fdiv := Rdiv;
  fneg := Ropp;
  fsqr := fun x => (x ^ 2)%R;
  fsin := sin;
  fcos := cos
|}.

(** binary64: 53 bits of precision, exponents up to 1024. *)
Module B64.

Definition prec : Z := 53.
Definition emax : Z := 1024.

(** An integer as a double; exact below 2^53. *)
Definition of_Z (z : Z) : spec_float := binary_normalize prec emax z 0 false.

Definition add : spec_float -> spec_float -> spec_float := SFadd prec emax.
Definition sub : spec_float -> spec_float -> spec_float := SFsub prec emax.
Definition mul : spec_float -> spec_float -> spec_float := SFmul prec emax.
Definition div : spec_float -> spec_float -> spec_float := SFdiv prec emax.

(** A literal is read as the double nearest to it.  Numerator and
    denominator of the literals of this module are exact doubles, so one
    correctly rounded division gives that double. *)
Definition of_Q (q : Q) : spec_float := div (of_Z (Qnum q)) (of_Z (Zpos (Qden q))).

End B64.

(** numpy's float64 scalars.  [np.sin], [np.cos] and the power [x ** 2]
    go through the C library; nothing is assumed of them. *)
Definition B64_scalar (libm_sin libm_cos libm_sqr : spec_float -> spec_float)
  : Scalar spec_float := {|
  of_int := B64.of_Z;
  of_lit := B64.of_Q;
  fadd := B64.add;
  fsub := B64.sub;
  fmul := B64.mul;
  fdiv := B64.div;
  fneg := SFopp;
  fsqr := libm_sqr;
  fsin := libm_sin;
  fcos := libm_cos
|}.

(** An infinity or a NaN. *)
Definition nonfinite (x : spec_float) : bool :=
  match x with
  | S754_infinity _ | S754_nan => true
  | S754_zero _ | S754_finite _ _ _ => false
  end.

(** A zero of either sign, or a NaN. *)
Definition zero_or_nan (x : spec_float) : bool :=
  match x with
  | S754_zero _ | S754_nan => true
  | S754_infinity _ | S754_finite _ _ _ => false
  end.

(** A returned entry that is an infinity or a NaN. *)
Definition returns_nonfinite (r : option spec_float) : bool :=
  match r with
  | Some x => nonfinite x
  | None => false
  end.

(** ** The module *)

Section VehicleDynamics.
Context {F : Type} `{Scalar F}.
Local Open Scope num_scope.

(** Constants for the dynamics *)
Definition ns : nat := 6.
Definition ni : nat := 2.
Definition dt : F := of_lit (1 # 1000).

(** Vehicle parameters *)
Definition mm : F := of_int 1480.
Definition Iz : F := of_int 1950.
Definition aa : F := of_lit (1421 # 1000).
Definition bb : F := of_lit (1029 # 1000).
Definition mi : F := of_int 1.
Definition gg : F := of_lit (981 # 100).

(** [np.zeros((r, c))] *)
Definition zeros (r c : nat) : list (list F) := replicate r (replicate c 0).

(** [a[i] = v] on a two-dimensional array: the scalar fills row [i]. *)
Definition set_row (i : nat) (v : F) (a : list (list F)) : list (list F) :=
  match a !! i with
  | Some row => <[i := replicate (length row) v]> a
  | None => a
  end.

(** [a.squeeze()] of an array of shape (n, 1). *)
Definition squeeze (a : list (list F)) : list F := concat a.

(** Slip angles for front and rear (Beta_f, Beta_r) *)
Definition Beta (x3 x4 x5 u0 : F) : F * F :=
  ( u0 - (x3 * fsin x4 + aa * x5) / (x3 * fcos x4),
    - (x3 * fsin x4 - bb * x5) / (x3 * fcos x4) ).

(** Vertical forces at front and rear (F_zf, F_zr) *)
Definition Fz : F * F := ( mm * gg * bb / (aa + bb), mm * gg * aa / (aa + bb) ).

(** Lateral forces at front and rear (F_yf, F_yr) *)
Definition Fy (B : F * F) : F * F := ( mi * Fz.1 * B.1, mi * Fz.2 * B.2 ).

(** [dynamics(xx, uu)].  [None] stands for the [IndexError] of an argument
    that is too short.  The pairs [Beta], [Fz] and [Fy] are the two-element
    lists of the source; [.1] is index 0 and [.2] is index 1. *)
Definition dynamics (xx uu : list F)
  : option (list F * list (list F) * list (list F)) :=
  x0 ← xx !! 0%nat; x1 ← xx !! 1%nat; x2 ← xx !! 2%nat;
  x3 ← xx !! 3%nat; x4 ← xx !! 4%nat; x5 ← xx !! 5%nat;
  u0 ← uu !! 0%nat; u1 ← uu !! 1%nat;
  let xxp := zeros ns 1 in
  let Beta := Beta x3 x4 x5 u0 in
  let Fy := Fy Beta in
  let xxp := set_row 0 (x0 + dt * (x3 * fcos x4 * fcos x2 - x3 * fsin x4 * fsin x2)) xxp in
  let xxp := set_row 1 (x1 + dt * (x3 * fcos x4 * fsin x2 + x3 * fsin x4 * fcos x2)) xxp in
  let xxp := set_row 2 (x2 + dt * x5) xxp in
  let xxp := set_row 3 (x3 + dt * ((Fy.2 * fsin x4 + u1 * fcos (x4 - u0) + Fy.1 * fsin (x4 - u0)) / mm)) xxp in
  let xxp := set_row 4 (x4 + dt * ((Fy.2 * fcos x4 + Fy.1 * fcos (x4 - u0) - u1 * fsin (x4 - u0)) / (mm * x3) - x5)) xxp in
  let xxp := set_row 5 (x5 + dt * (((u1 * fsin u0 + Fy.1 * fcos u0) * aa - Fy.2 * bb) / Iz)) xxp in
  let fx := zeros ns ns in
  let fu := zeros ni ns in
  let cos_xx4 := fcos x4 in
  let sin_xx4 := fsin x4 in
  let cos_xx4_minus_uu0 := fcos (x4 - u0) in
  let sin_xx4_minus_uu0 := fsin (x4 - u0) in
  let m_xx3_sq := mm * fsqr x3 in
  let fx :=
    [ [1; 0; 0; 0; 0; 0];
      [0; 1; 0; 0; 0; 0];
      [dt * (- x3 * cos_xx4 * fsin x2 - x3 * sin_xx4 * fcos x2);
       dt * (x3 * cos_xx4 * fcos x2 - x3 * sin_xx4 * fsin x2); 1; 0; 0; 0];
      [dt * (fcos x4 * fcos x2 - fsin x4 * fsin x2);
       dt * (fcos x4 * fsin x2 + fsin x4 * fcos x2); 0; 1;
       dt * ((Fy.2 * fcos x4 + Fy.1 * fcos (x4 - u0) - u1 * fsin (x4 - u0)) * (of_int (-1) / m_xx3_sq)); 0];
      [dt * (- x3 * sin_xx4 * fcos x2 - x3 * cos_xx4 * fsin x2);
       dt * (- x3 * sin_xx4 * fsin x2 + x3 * cos_xx4 * fcos x2); 0;
       dt * ((Fy.2 * fcos x4 - u1 * fsin (x4 - u0) + Fy.1 * fcos (x4 - u0)) / mm);
       1 + dt * ((- Fy.2 * fsin x4 - Fy.1 * fsin (x4 - u0) - u1 * fcos (x4 - u0)) / (mm * x3)); 0];
      [0; 0; dt; 0; - dt; 1] ] in
  let xxp := squeeze xxp in
  Some (xxp, fx, fu).

(** The three values [dynamics] returns. *)
Definition next_state (xx uu : list F) : option (list F) :=
  r ← dynamics xx uu; Some r.1.1.

Definition grad_x (xx uu : list F) : option (list (list F)) :=
  r ← dynamics xx uu; Some r.1.2.

Definition grad_u (xx uu : list F) : option (list (list F)) :=
  r ← dynamics xx uu; Some r.2.

(** [a[i]], the column [a[:, j]] and [a[i][j]] of a returned matrix. *)
Definition row (i : nat) (a : option (list (list F))) : option (list F) :=
  a ≫= (.!! i).

Definition col (j : nat) (a : option (list (list F))) : option (list F) :=
  a ≫= mapM (.!! j).

Definition entry (i j : nat) (a : option (list (list F))) : option F :=
  row i a ≫= (.!! j).

End VehicleDynamics.

(** ** The call on numpy arrays

    What a call does to the objects around it.  The arguments are
    references to arrays that the caller keeps; the body allocates arrays
    of its own and assigns into one of them.  The heap holds the buffer of
    every array, a reference names a buffer and a shape.  The names the
    body reads from the module ([ns], [dt], [mm], ...) are bound to numbers
    and the body has no [global] statement and no assignment to them, so
    they stay the constants above. *)

Record ndarray := { buf : nat; shape : list nat }.

Section Call.
Context {F : Type} `{Scalar F}.
Local Open Scope num_scope.

(** A computation on the heap, the list of all buffers, that returns or
    raises. *)
Definition M (A : Type) : Type := list (list F) -> option (A * list (list F)).

Definition ret {A : Type} (a : A) : M A := fun h => Some (a, h).

Definition bind {A B : Type} (m : M A) (k : A -> M B) : M B :=
  fun h => match m h with
           | Some (a, h') => k a h'
           | None => None
           end.

(** [np.zeros((r, c))]: a new buffer of zeros. *)
Definition np_zeros (r c : nat) : M ndarray :=
  fun h => Some ({| buf := length h; shape := [r; c] |}, h ++ [replicate (r * c) 0]).

(** [np.array(rows)]: a new buffer holding the rows. *)
Definition np_array (rows : list (list F)) : M ndarray :=
  fun h => Some ({| buf := length h;
                    shape := [length rows; default 0%nat (length <$> head rows)] |},
                 h ++ [concat rows]).

(** [a[i]] of a one-dimensional array; [None] is the [IndexError]. *)
Definition getitem (a : ndarray) (i : nat) : M F :=
  fun h => b ← h !! buf a; x ← b !! i; Some (x, h).

(** [a[i] = v] on a two-dimensional array: the scalar fills row [i] of the
    buffer of [a], in place. *)
Definition setitem (a : ndarray) (i : nat) (v : F) : M unit :=
  fun h =>
    b ← h !! buf a;
    match shape a with
    | [r; c] =>
      if decide (i < r)%nat
      then Some (tt, <[buf a := take (i * c) b ++ replicate c v ++ drop (i * c + c) b]> h)
      else None
    | _ => None
    end.

(** [a.squeeze()]: a view, the same buffer without the axes of length 1. *)
Definition view_squeeze (a : ndarray) : ndarray :=
  {| buf := buf a; shape := filter (fun n => n <> 1%nat) (shape a) |}.

(** What a reference holds in a heap: its shape and its buffer. *)
Definition contents (h : list (list F)) (a : ndarray) : option (list nat * list F) :=
  b ← h !! buf a; Some (shape a, b).

Definition values (h : list (list F)) (r : ndarray * ndarray * ndarray)
  : option (list nat * list F) * option (list nat * list F) * option (list nat * list F) :=
  (contents h r.1.1, contents h r.1.2, contents h r.2).

Notation "'do' x <- m ; k" := (bind m (fun x => k))
  (at level 10, x name, m at level 100, k at level 200, only parsing).
Notation "'run' m ; k" := (bind m (fun _ => k))
  (at level 10, m at level 100, k at level 200, only parsing).

(** The body of [dynamics], statement by statement, on references.  Each
    statement first reads the entries it mentions, in the order it
    mentions them. *)
Definition dynamics_call (xx uu : ndarray) : M (ndarray * ndarray * ndarray) :=
  do xxp <- np_zeros ns 1;
  (* Beta, Fz, Fy *)
  do u0 <- getitem uu 0; do x3 <- getitem xx 3;
  do x4 <- getitem xx 4; do x5 <- getitem xx 5;
  let Beta := Beta x3 x4 x5 u0 in
  let Fy := Fy Beta in
  (* xxp[0] *)
  do x0 <- getitem xx 0; do x3 <- getitem xx 3;
  do x4 <- getitem xx 4; do x2 <- getitem xx 2;
  run setitem xxp 0 (x0 + dt * (x3 * fcos x4 * fcos x2 - x3 * fsin x4 * fsin x2));
  (* xxp[1] *)
  do x1 <- getitem xx 1; do x3 <- getitem xx 3;
  do x4 <- getitem xx 4; do x2 <- getitem xx 2;
  run setitem xxp 1 (x1 + dt * (x3 * fcos x4 * fsin x2 + x3 * fsin x4 * fcos x2));
  (* xxp[2] *)
  do x2 <- getitem xx 2; do x5 <- getitem xx 5;
  run setitem xxp 2 (x2 + dt * x5);
  (* xxp[3] *)
  do x3 <- getitem xx 3; do x4 <- getitem xx 4;
  do u1 <- getitem uu 1; do u0 <- getitem uu 0;
  run setitem xxp 3 (x3 + dt * ((Fy.2 * fsin x4 + u1 * fcos (x4 - u0) + Fy.1 * fsin (x4 - u0)) / mm));
  (* xxp[4] *)
  do x4 <- getitem xx 4; do u0 <- getitem uu 0; do u1 <- getitem uu 1;
  do x3 <- getitem xx 3; do x5 <- getitem xx 5;
  run setitem xxp 4 (x4 + dt * ((Fy.2 * fcos x4 + Fy.1 * fcos (x4 - u0) - u1 * fsin (x4 - u0)) / (mm * x3) - x5));
  (* xxp[5] *)
  do x5 <- getitem xx 5; do u1 <- getitem uu 1; do u0 <- getitem uu 0;
  run setitem xxp 5 (x5 + dt * (((u1 * fsin u0 + Fy.1 * fcos u0) * aa - Fy.2 * bb) / Iz));
  (* fx and fu preallocated *)
  do fx <- np_zeros ns ns;
  do fu <- np_zeros ni ns;
  (* repeated terms *)
  do x4 <- getitem xx 4; do u0 <- getitem uu 0; do x3 <- getitem xx 3;
  let cos_xx4 := fcos x4 in
  let sin_xx4 := fsin x4 in
  let cos_xx4_minus_uu0 := fcos (x4 - u0) in
  let sin_xx4_minus_uu0 := fsin (x4 - u0) in
  let m_xx3_sq := mm * fsqr x3 in
  (* fx rebound to a new array *)
  do x3 <- getitem xx 3; do x2 <- getitem xx 2; do x4 <- getitem xx 4;
  do u0 <- getitem uu 0; do u1 <- getitem uu 1;
  do fx <- np_array
    [ [1; 0; 0; 0; 0; 0];
      [0; 1; 0; 0; 0; 0];
      [dt * (- x3 * cos_xx4 * fsin x2 - x3 * sin_xx4 * fcos x2);
       dt * (x3 * cos_xx4 * fcos x2 - x3 * sin_xx4 * fsin x2); 1; 0; 0; 0];
      [dt * (fcos x4 * fcos x2 - fsin x4 * fsin x2);
       dt * (fcos x4 * fsin x2 + fsin x4 * fcos x2); 0; 1;
       dt * ((Fy.2 * fcos x4 + Fy.1 * fcos (x4 - u0) - u1 * fsin (x4 - u0)) * (of_int (-1) / m_xx3_sq)); 0];
      [dt * (- x3 * sin_xx4 * fcos x2 - x3 * cos_xx4 * fsin x2);
       dt * (- x3 * sin_xx4 * fsin x2 + x3 * cos_xx4 * fcos x2); 0;
       dt * ((Fy.2 * fcos x4 - u1 * fsin (x4 - u0) + Fy.1 * fcos (x4 - u0)) / mm);
       1 + dt * ((- Fy.2 * fsin x4 - Fy.1 * fsin (x4 - u0) - u1 * fcos (x4 - u0)) / (mm * x3)); 0];
      [0; 0; dt; 0; - dt; 1] ];
  (* the views: one kept, two dropped *)
  let xxp := view_squeeze xxp in
  let _ := view_squeeze fx in
  let _ := view_squeeze fu in
  ret (xxp, fx, fu).

End Call.

(** ** The model as section 4 of the specification writes it

    Over the reals, with the names of the specification: the state is
    [X, Y, psi, V, beta, omega], the input is [delta, Fx]; the parameters
    and the step size are the constants of the module. *)

Module Spec.
Section Step.
Local Open Scope R_scope.
Variables X Y psi V beta omega delta Fx : R.

Definition m : R := mm.
Definition a : R := aa.
Definition b : R := bb.
Definition mu : R := mi.
Definition g : R := gg.

(** Steps 1 to 3: slip angles, static loads, linear lateral forces. *)
Definition beta_f : R := delta - (V * sin beta + a * omega) / (V * cos beta).
Definition beta_r : R := - (V * sin beta - b * omega) / (V * cos beta).
Definition Fz_f : R := m * g * b / (a + b).
Definition Fz_r : R := m * g * a / (a + b).
Definition Fy_f : R := mu * Fz_f * beta_f.
Definition Fy_r : R := mu * Fz_r * beta_r.

(** Step 4: the six equations of the next state. *)
Definition X' : R := X + dt * (V * cos beta * cos psi - V * sin beta * sin psi).
Definition Y' : R := Y + dt * (V * cos beta * sin psi + V * sin beta * cos psi).
Definition psi' : R := psi + dt * omega.
Definition V' : R :=
  V + dt * (Fy_r * sin beta + Fx * cos (beta - delta) + Fy_f * sin (beta - delta)) / m.
Definition beta' : R :=
  beta + dt * ((Fy_r * cos beta + Fy_f * cos (beta - delta) - Fx * sin (beta - delta)) / (m * V) - omega).
Definition omega' : R :=
  omega + dt * (((Fx * sin delta + Fy_f * cos delta) * a - Fy_r * b) / Iz).

Definition step : list R := [X'; Y'; psi'; V'; beta'; omega'].

(** Step 5: rows 0, 2 and 5 of [fx] as listed there. *)
Definition dX'_dpsi : R := dt * (- V * cos beta * sin psi - V * sin beta * cos psi).
Definition dX'_dV : R := dt * (cos beta * cos psi - sin beta * sin psi).
Definition dX'_dbeta : R := dt * (- V * sin beta * cos psi - V * cos beta * sin psi).
Definition fx_row0 : list R := [1; 0; dX'_dpsi; dX'_dV; dX'_dbeta; 0].
Definition fx_row2 : list R := [0; 0; 1; 0; 0; dt].
Definition fx_row5 : list R := [0; 0; dt; 0; - dt; 1].

End Step.
End Spec.

(** ** Vocabulary of the statements over the reals *)

(** Component [j] of the next state and entry [(i, j)] of [fx], as reals. *)
Definition next_comp (j : nat) (xx uu : list R) : R :=
  default 0%R (next_state xx uu ≫= (.!! j)).

Definition fx_entry (i j : nat) (xx uu : list R) : R :=
  default 0%R (entry i j (grad_x xx uu)).

(** The six equations of the step with the lateral forces [(Fy_f, Fy_r)]
    held at given values: what is left to differentiate once the forces
    are taken as constants. *)
Definition frozen_step (FY : R * R) (xx uu : list R) : list R :=
  match xx, uu with
  | [X; Y; psi; V; beta; omega], [delta; Fx] =>
    [ X + dt * (V * cos beta * cos psi - V * sin beta * sin psi);
      Y + dt * (V * cos beta * sin psi + V * sin beta * cos psi);
      psi + dt * omega;
      V + dt * ((FY.2 * sin beta + Fx * cos (beta - delta) + FY.1 * sin (beta - delta)) / mm);
      beta + dt * ((FY.2 * cos beta + FY.1 * cos (beta - delta) - Fx * sin (beta - delta)) / (mm * V) - omega);
      omega + dt * (((Fx * sin delta + FY.1 * cos delta) * aa - FY.2 * bb) / Iz) ]%R
  | _, _ => []
  end.

(** The position of a state moved by [(dX, dY)]. *)
Definition translate (dX dY : R) (xx : list R) : list R :=
  match xx with
  | X :: Y :: rest => (X + dX)%R :: (Y + dY)%R :: rest
  | _ => xx
  end.

(** The vehicle seen in a mirror along the X axis: what lies to the left
    lies to the right. *)
Definition mirror_state (xx : list R) : list R :=
  match xx with
  | [X; Y; psi; V; beta; omega] => [X; - Y; - psi; V; - beta; - omega]%R
  | _ => xx
  end.

Definition mirror_input (uu : list R) : list R :=
  match uu with
  | [delta; Fx] => [- delta; Fx]%R
  | _ => uu
  end.

(** A next state turned by [theta] about the position [(X, Y)] it was
    reached from. *)
Definition turn_about (X Y theta : R) (next : list R) : list R :=
  match next with
  | [X'; Y'; psi'; V'; beta'; omega'] =>
    [ X + (cos theta * (X' - X) - sin theta * (Y' - Y));
      Y + (sin theta * (X' - X) + cos theta * (Y' - Y));
      psi' + theta; V'; beta'; omega' ]%R
  | _ => next
  end.

(** ** Properties that hold in every arithmetic *)

Section Generic.
Context {F : Type} `{Scalar F}.
Local Open Scope num_scope.
Implicit Types xx uu : list F.

(** The call fails (an [IndexError]) exactly when an argument is too
    short; it returns otherwise. *)
Lemma dynamics_returns xx uu :
  is_Some (dynamics xx uu) <-> (6 <= length xx)%nat /\ (2 <= length uu)%nat.
Proof.
  split.
  - intros [r Hr]. unfold dynamics in Hr.
    destruct (xx !! 5%nat) eqn:E5.
    2:{ repeat (match type of Hr with context [?l !! ?i] =>
                  destruct (l !! i); simpl in Hr; try discriminate end). }
    destruct (uu !! 1%nat) eqn:E1.
    2:{ repeat (match type of Hr with context [?l !! ?i] =>
                  destruct (l !! i); simpl in Hr; try discriminate end). }
    apply lookup_lt_Some in E5, E1. lia.
  - intros [Hx Hu].
    do 6 (destruct xx as [|? xx]; simpl in Hx; try lia).
    do 2 (destruct uu as [|? uu]; simpl in Hu; try lia).
    eexists; reflexivity.
Qed.

(** Only the first six entries of [xx] and the first two of [uu] are
    ever read. *)
Lemma dynamics_reads_prefix xx uu xx' uu' :
  take 6 xx = take 6 xx' -> take 2 uu = take 2 uu' ->
  dynamics xx uu = dynamics xx' uu'.
Proof.
  intros Hx Hu.
  assert (Lx : forall i, (i < 6)%nat -> xx !! i = xx' !! i).
  { intros i Hi. rewrite <- (lookup_take_lt xx 6 i Hi), Hx. now apply lookup_take_lt. }
  assert (Lu : forall i, (i < 2)%nat -> uu !! i = uu' !! i).
  { intros i Hi. rewrite <- (lookup_take_lt uu 2 i Hi), Hu. now apply lookup_take_lt. }
  unfold dynamics.
  rewrite (Lx 0%nat), (Lx 1%nat), (Lx 2%nat), (Lx 3%nat), (Lx 4%nat), (Lx 5%nat) by lia.
  rewrite (Lu 0%nat), (Lu 1%nat) by lia.
  reflexivity.
Qed.

Variables X Y psi V beta omega delta Fx : F.

(** The preallocated [xxp], its six assignments and the final [squeeze]
    leave the six right-hand sides, in order. *)
Lemma next_state_unfold :
  next_state [X; Y; psi; V; beta; omega] [delta; Fx]
  = let Fy := Fy (Beta V beta omega delta) in
    Some [X + dt * (V * fcos beta * fcos psi - V * fsin beta * fsin psi);
          Y + dt * (V * fcos beta * fsin psi + V * fsin beta * fcos psi);
          psi + dt * omega;
          V + dt * ((Fy.2 * fsin beta + Fx * fcos (beta - delta) + Fy.1 * fsin (beta - delta)) / mm);
          beta + dt * ((Fy.2 * fcos beta + Fy.1 * fcos (beta - delta) - Fx * fsin (beta - delta)) / (mm * V) - omega);
          omega + dt * (((Fx * fsin delta + Fy.1 * fcos delta) * aa - Fy.2 * bb) / Iz)].
Proof. reflexivity. Qed.

(** Rows 0, 1 and 5 of the returned [fx] are written as constants. *)
Lemma fx_row_0 :
  row 0 (grad_x [X; Y; psi; V; beta; omega] [delta; Fx]) = Some [1; 0; 0; 0; 0; 0].
Proof. reflexivity. Qed.

Lemma fx_row_1 :
  row 1 (grad_x [X; Y; psi; V; beta; omega] [delta; Fx]) = Some [0; 1; 0; 0; 0; 0].
Proof. reflexivity. Qed.

Lemma fx_row_5 :
  row 5 (grad_x [X; Y; psi; V; beta; omega] [delta; Fx]) = Some [0; 0; dt; 0; - dt; 1].
Proof. reflexivity. Qed.

(** Row 2 holds what the two positions and the heading gain from [psi]. *)
Lemma fx_row_2 :
  row 2 (grad_x [X; Y; psi; V; beta; omega] [delta; Fx])
  = Some [dt * (- V * fcos beta * fsin psi - V * fsin beta * fcos psi);
          dt * (V * fcos beta * fcos psi - V * fsin beta * fsin psi);
          1; 0; 0; 0].
Proof. reflexivity. Qed.

(** Columns 0, 1 and 2: one entry per state component. *)
Lemma fx_col_0 :
  col 0 (grad_x [X; Y; psi; V; beta; omega] [delta; Fx])
  = Some [1; 0;
          dt * (- V * fcos beta * fsin psi - V * fsin beta * fcos psi);
          dt * (fcos beta * fcos psi - fsin beta * fsin psi);
          dt * (- V * fsin beta * fcos psi - V * fcos beta * fsin psi);
          0].
Proof. reflexivity. Qed.

Lemma fx_col_1 :
  col 1 (grad_x [X; Y; psi; V; beta; omega] [delta; Fx])
  = Some [0; 1;
          dt * (V * fcos beta * fcos psi - V * fsin beta * fsin psi);
          dt * (fcos beta * fsin psi + fsin beta * fcos psi);
          dt * (- V * fsin beta * fsin psi + V * fcos beta * fcos psi);
          0].
Proof. reflexivity. Qed.

Lemma fx_col_2 :
  col 2 (grad_x [X; Y; psi; V; beta; omega] [delta; Fx]) = Some [0; 0; 1; 0; 0; dt].
Proof. reflexivity. Qed.

(** The position [(X, Y)] is read by the first two equations only. *)
Lemma position_is_read_by_its_own_rows (X2 Y2 : F) :
  drop 2 <$> next_state [X2; Y2; psi; V; beta; omega] [delta; Fx]
  = drop 2 <$> next_state [X; Y; psi; V; beta; omega] [delta; Fx]
  /\ grad_x [X2; Y2; psi; V; beta; omega] [delta; Fx]
     = grad_x [X; Y; psi; V; beta; omega] [delta; Fx]
  /\ grad_u [X2; Y2; psi; V; beta; omega] [delta; Fx]
     = grad_u [X; Y; psi; V; beta; omega] [delta; Fx].
Proof. repeat split. Qed.

End Generic.

(** C4.  For every state and input, the third value [dynamics] returns is
    the matrix of [ni] = 2 rows and [ns] = 6 columns whose entries are all
    zero: [fu] is allocated by [np.zeros((ni, ns))] and never written.
    This holds for every call that gets at least the six state entries and
    the two input entries it reads. *)
Theorem dynamics_fu_is_zero {F : Type} `{Scalar F} (xx uu : list F) :
  (6 <= length xx)%nat -> (2 <= length uu)%nat ->
  grad_u xx uu = Some [ [0; 0; 0; 0; 0; 0]; [0; 0; 0; 0; 0; 0] ]%num.
Proof.
  intros Hx Hu.
  do 6 (destruct xx as [|? xx]; simpl in Hx; try lia).
  do 2 (destruct uu as [|? uu]; simpl in Hu; try lia).
  reflexivity.
Qed.

Lemma dynamics_fu_is_zero_witness :
  grad_u [0; 0; 0; 10; 0; 0]%R [0; 0]%R
  = Some [ [0; 0; 0; 0; 0; 0]; [0; 0; 0; 0; 0; 0] ]%num.
Proof.
  apply (dynamics_fu_is_zero [0; 0; 0; 10; 0; 0]%R [0; 0]%R); simpl; lia.
Defined.

(** C5.  For every state and input, component 2 of the next state is
    [x[2] + dt * x[5]]; a call that differs in the input and in every state
    component but [x[2]] and [x[5]], hence in the tire forces, returns the
    same component 2. *)
Theorem dynamics_yaw_integration {F : Type} `{Scalar F}
    (X Y psi V beta omega delta Fx X2 Y2 V2 beta2 delta2 Fx2 : F) :
  next_state [X; Y; psi; V; beta; omega] [delta; Fx] ≫= (.!! 2%nat)
  = Some (psi + dt * omega)%num
  /\ next_state [X2; Y2; psi; V2; beta2; omega] [delta2; Fx2] ≫= (.!! 2%nat)
     = next_state [X; Y; psi; V; beta; omega] [delta; Fx] ≫= (.!! 2%nat).
Proof. split; reflexivity. Qed.

(** ** The call on the heap *)

Section CallSteps.
Context {F : Type} `{Scalar F}.
Implicit Types (h E : list (list F)) (a : ndarray).

Lemma bind_np_zeros {A : Type} (r c : nat) (k : ndarray -> M A) h E :
  bind (np_zeros r c) k (h ++ E)
  = k {| buf := length h + length E; shape := [r; c] |}
      (h ++ (E ++ [replicate (r * c) 0%num])).
Proof.
  unfold bind, np_zeros. rewrite length_app, <- app_assoc. reflexivity.
Qed.

Lemma bind_np_array {A : Type} (rows : list (list F)) (k : ndarray -> M A) h E :
  bind (np_array rows) k (h ++ E)
  = k {| buf := length h + length E;
         shape := [length rows; default 0%nat (length <$> head rows)] |}
      (h ++ (E ++ [concat rows])).
Proof.
  unfold bind, np_array. rewrite length_app, <- app_assoc. reflexivity.
Qed.

(** Reading an array the caller holds, whatever was allocated since. *)
Lemma bind_getitem {A : Type} a (i : nat) (k : F -> M A) h E b :
  h !! buf a = Some b ->
  bind (getitem a i) k (h ++ E)
  = match b !! i with Some x => k x (h ++ E) | None => None end.
Proof.
  intros Hb. unfold bind, getitem.
  rewrite (lookup_app_l_Some _ _ _ _ Hb). simpl.
  destruct (b !! i); reflexivity.
Qed.

(** Writing a row of an array allocated since the call began. *)
Lemma bind_setitem {A : Type} (j r c i : nat) (v : F) (k : unit -> M A) h E b :
  E !! j = Some b -> (i < r)%nat ->
  bind (setitem {| buf := length h + j; shape := [r; c] |} i v) k (h ++ E)
  = k tt (h ++ <[j := take (i * c) b ++ replicate c v ++ drop (i * c + c) b]> E).
Proof.
  intros Hb Hi. unfold bind, setitem. cbn [buf shape].
  rewrite lookup_app_r by lia.
  replace (length h + j - length h)%nat with j by lia.
  rewrite Hb. simpl.
  destruct (decide (i < r)%nat) as [_ | n]; [| contradiction].
  rewrite insert_app_r. reflexivity.
Qed.

End CallSteps.

(** One statement of the body on a heap [h ++ E]: [h] is what the caller
    had, [E] what the call has allocated. *)
Ltac call_step Hx Hu :=
  first [ rewrite bind_np_zeros
        | rewrite bind_np_array
        | rewrite (bind_getitem _ _ _ _ _ _ Hx)
        | rewrite (bind_getitem _ _ _ _ _ _ Hu)
        | erewrite bind_setitem by (first [reflexivity | cbv; lia]) ];
  cbn [length app Nat.add Nat.mul lookup list_lookup insert list_insert
       take drop replicate ns ni].

Section CallRuns.
Context {F : Type} `{Scalar F}.

(** The call, run: the arrays of the caller are read, four buffers are
    appended (the next state, the preallocated [fx] that is dropped, [fu],
    the [fx] that is returned) and the three references point at three
    of them; the buffers hold what [dynamics] computes from the entries of
    the arguments. *)
Lemma dynamics_call_runs (h : list (list F)) (xx uu : ndarray) (xs us : list F) :
  h !! buf xx = Some xs -> h !! buf uu = Some us ->
  dynamics_call xx uu h
  = r ← dynamics xs us;
    Some (({| buf := length h + 0; shape := [6%nat] |},
           {| buf := length h + 3; shape := [6%nat; 6%nat] |},
           {| buf := length h + 2; shape := [2%nat; 6%nat] |}),
          h ++ [r.1.1; replicate 36 0%num; concat r.2; concat r.1.2]).
Proof.
  intros Hx Hu.
  rewrite <- (app_nil_r h) at 1.
  unfold dynamics_call.
  destruct us as [|u0 [|u1 us]]; destruct xs as [|x0 [|x1 [|x2 [|x3 [|x4 [|x5 xs]]]]]].
  all: repeat call_step Hx Hu.
  all: try reflexivity.
Qed.

End CallRuns.

Section CallValues.
Context {F : Type} `{Scalar F}.

(** What the three returned references hold after the run. *)
Lemma values_after_run (h E : list (list F)) (b0 b1 b2 b3 : list F) :
  values (h ++ [b0; b1; b2; b3] ++ E)
         ({| buf := length h + 0; shape := [6%nat] |},
          {| buf := length h + 3; shape := [6%nat; 6%nat] |},
          {| buf := length h + 2; shape := [2%nat; 6%nat] |})
  = (Some ([6%nat], b0), Some ([6%nat; 6%nat], b3), Some ([2%nat; 6%nat], b2)).
Proof.
  unfold values, contents. cbn [fst snd buf shape].
  rewrite (lookup_app_r h _ (length h + 0)) by lia.
  rewrite (lookup_app_r h _ (length h + 3)) by lia.
  rewrite (lookup_app_r h _ (length h + 2)) by lia.
  replace (length h + 0 - length h)%nat with 0%nat by lia.
  replace (length h + 3 - length h)%nat with 3%nat by lia.
  replace (length h + 2 - length h)%nat with 2%nat by lia.
  reflexivity.
Qed.

End CallValues.

(** C8.  [dynamics] is deterministic and has no side effects.  On a heap
    where the two arguments are one-dimensional arrays of at least six and
    two entries, a call returns, and a second call on the heap the first
    one left returns too; both triples hold the values the function [dynamics]
    gives for the entries of the arguments, so they are identical and
    depend on nothing else; the first triple is untouched by the second
    call; every buffer that existed before a call, the arguments among
    them, is unchanged after it; and each call returns arrays it has
    allocated itself. *)
Theorem dynamics_call_is_repeatable {F : Type} `{Scalar F}
    (h : list (list F)) (xx uu : ndarray) (xs us : list F) :
  h !! buf xx = Some xs -> h !! buf uu = Some us ->
  shape xx = [length xs] -> shape uu = [length us] ->
  (6 <= length xs)%nat -> (2 <= length us)%nat ->
  exists xxp fx fu r1 h1 r2 h2,
    dynamics xs us = Some (xxp, fx, fu)
    /\ dynamics_call xx uu h = Some (r1, h1)
    /\ dynamics_call xx uu h1 = Some (r2, h2)
    /\ values h1 r1
       = (Some ([6%nat], xxp), Some ([6%nat; 6%nat], concat fx), Some ([2%nat; 6%nat], concat fu))
    /\ values h2 r2 = values h1 r1
    /\ values h2 r1 = values h1 r1
    /\ h `prefix_of` h1 /\ h1 `prefix_of` h2
    /\ Forall (fun a => (length h <= buf a)%nat) [r1.1.1; r1.1.2; r1.2]
    /\ Forall (fun a => (length h1 <= buf a)%nat) [r2.1.1; r2.1.2; r2.2].
Proof.
  intros Hx Hu _ _ Lx Lu.
  destruct (proj2 (dynamics_returns xs us) (conj Lx Lu)) as [[[xxp fx] fu] Hd].
  pose proof (dynamics_call_runs h xx uu xs us Hx Hu) as R1.
  rewrite Hd in R1. cbn [mbind option_bind fst snd] in R1.
  set (E1 := [xxp; replicate 36 0%num; concat fu; concat fx]) in *.
  pose proof (dynamics_call_runs (h ++ E1) xx uu xs us
                (lookup_app_l_Some _ _ _ _ Hx) (lookup_app_l_Some _ _ _ _ Hu)) as R2.
  rewrite Hd in R2. cbn [mbind option_bind fst snd] in R2. fold E1 in R2.
  exists xxp, fx, fu. do 4 eexists.
  split; [exact Hd |]. split; [exact R1 |]. split; [exact R2 |].
  assert (V1 : values (h ++ E1)
                 ({| buf := length h + 0; shape := [6%nat] |},
                  {| buf := length h + 3; shape := [6%nat; 6%nat] |},
                  {| buf := length h + 2; shape := [2%nat; 6%nat] |})
               = (Some ([6%nat], xxp), Some ([6%nat; 6%nat], concat fx),
                  Some ([2%nat; 6%nat], concat fu))).
  { rewrite <- (app_nil_r E1). apply values_after_run. }
  split; [exact V1 |].
  split.
  { rewrite V1. rewrite <- (app_nil_r E1) at 2. apply values_after_run. }
  split.
  { rewrite V1. rewrite <- app_assoc. apply values_after_run. }
  split; [eexists; reflexivity |].
  split; [eexists; reflexivity |].
  split; repeat constructor; cbn [fst snd buf]; rewrite ?length_app; lia.
Qed.

Lemma dynamics_call_is_repeatable_witness :
  let h := [[0; 0; 0; 10; 0; 0]; [0; 0]]%R in
  let xx := {| buf := 0; shape := [6%nat] |} in
  let uu := {| buf := 1; shape := [2%nat] |} in
  exists xxp fx fu r1 h1 r2 h2,
    dynamics [0; 0; 0; 10; 0; 0]%R [0; 0]%R = Some (xxp, fx, fu)
    /\ dynamics_call xx uu h = Some (r1, h1)
    /\ dynamics_call xx uu h1 = Some (r2, h2)
    /\ values h1 r1
       = (Some ([6%nat], xxp), Some ([6%nat; 6%nat], concat fx), Some ([2%nat; 6%nat], concat fu))
    /\ values h2 r2 = values h1 r1
    /\ values h2 r1 = values h1 r1
    /\ h `prefix_of` h1 /\ h1 `prefix_of` h2
    /\ Forall (fun a => (length h <= buf a)%nat) [r1.1.1; r1.1.2; r1.2]
    /\ Forall (fun a => (length h1 <= buf a)%nat) [r2.1.1; r2.1.2; r2.2].
Proof.
  intros h xx uu.
  apply (dynamics_call_is_repeatable h xx uu [0; 0; 0; 10; 0; 0]%R [0; 0]%R);
    [reflexivity | reflexivity | reflexivity | reflexivity | simpl; lia | simpl; lia].
Defined.

(** ** The model over the reals *)

(** Splits an equation between returned vectors into its entries. *)
Ltac by_entries :=
  repeat match goal with
         | |- Some _ = Some _ => apply f_equal
         | |- _ :: _ = _ :: _ => apply (f_equal2 cons)
         | |- [] = [] => reflexivity
         end.

Section OverR.
Local Open Scope R_scope.

Lemma dt_R : dt = 1 / 1000.
Proof. unfold dt; cbn; unfold Q2R; cbn; lra. Qed.

Lemma mm_R : mm = 1480.
Proof. reflexivity. Qed.

Lemma Iz_R : Iz = 1950.
Proof. reflexivity. Qed.

Lemma cos_0_neq_0 : cos 0 <> 0.
Proof. rewrite cos_0. lra. Qed.

(** The slip angles, loads and forces of the body are those of steps 1
    to 3, term for term. *)
Lemma Beta_is_spec V beta omega delta :
  Beta V beta omega delta = (Spec.beta_f V beta omega delta, Spec.beta_r V beta omega).
Proof. reflexivity. Qed.

Lemma Fz_is_spec : Fz = (Spec.Fz_f, Spec.Fz_r).
Proof. reflexivity. Qed.

Lemma Fy_is_spec V beta omega delta :
  Fy (Beta V beta omega delta) = (Spec.Fy_f V beta omega delta, Spec.Fy_r V beta omega).
Proof. reflexivity. Qed.

(** The speed equation: the body divides the bracket by [m] and then
    multiplies by [dt], the specification multiplies first. *)
Lemma speed_update_is_spec V beta omega delta Fx :
  V + dt * (((Fy (Beta V beta omega delta)).2 * sin beta
             + Fx * cos (beta - delta)
             + (Fy (Beta V beta omega delta)).1 * sin (beta - delta)) / mm)
  = Spec.V' V beta omega delta Fx.
Proof.
  rewrite Fy_is_spec. cbn [fst snd]. unfold Spec.V', Spec.m, Rdiv. ring.
Qed.

Lemma Beta_straight : Beta 10 0 0 0 = (0, 0).
Proof.
  unfold Beta. cbn [fadd fsub fmul fdiv fneg fsin fcos R_scalar].
  rewrite sin_0, cos_0. f_equal; unfold Rdiv; ring.
Qed.

Lemma Fy_straight : Fy (Beta 10 0 0 0) = (0, 0).
Proof.
  rewrite Beta_straight. unfold Fy.
  cbn [fst snd fmul R_scalar]. f_equal; ring.
Qed.

End OverR.

(** C1.  Over the reals, for every state with [x[3] <> 0] and
    [cos x[4] <> 0] and every input, the slip angles, loads and lateral
    forces the body computes are those of steps 1 to 3 of section 4, and
    the first value [dynamics] returns is the forward-Euler state given by
    the six equations of step 4. *)
Theorem dynamics_next_state_is_euler_step (X Y psi V beta omega delta Fx : R) :
  V <> 0%R -> cos beta <> 0%R ->
  Beta V beta omega delta = (Spec.beta_f V beta omega delta, Spec.beta_r V beta omega)
  /\ Fz = (Spec.Fz_f, Spec.Fz_r)
  /\ Fy (Beta V beta omega delta) = (Spec.Fy_f V beta omega delta, Spec.Fy_r V beta omega)
  /\ next_state [X; Y; psi; V; beta; omega] [delta; Fx]
     = Some (Spec.step X Y psi V beta omega delta Fx).
Proof.
  intros _ _.
  split; [apply Beta_is_spec | split; [apply Fz_is_spec | split; [apply Fy_is_spec |]]].
  rewrite next_state_unfold. cbv zeta.
  cbn [fadd fsub fmul fdiv fneg fsin fcos R_scalar].
  rewrite speed_update_is_spec. reflexivity.
Qed.

Lemma dynamics_next_state_is_euler_step_witness :
  Beta 10%R 0%R 0%R 0%R = (Spec.beta_f 10 0 0 0, Spec.beta_r 10 0 0)
  /\ Fz = (Spec.Fz_f, Spec.Fz_r)
  /\ Fy (Beta 10%R 0%R 0%R 0%R) = (Spec.Fy_f 10 0 0 0, Spec.Fy_r 10 0 0)
  /\ next_state [0; 0; 0; 10; 0; 0]%R [0; 0]%R
     = Some (Spec.step 0 0 0 10 0 0 0 0).
Proof.
  apply dynamics_next_state_is_euler_step; [lra | exact cos_0_neq_0].
Defined.

(** C6.  With the parameter values of the module (m = 1480, Iz = 1950,
    a = 1.421, b = 1.029, mu = 1, g = 9.81, dt = 1e-3), the state
    [0,0,0,10,0,0] and the input [0,0] give slip angles 0, lateral forces
    0 and the next state [0.01, 0, 0, 10, 0, 0]. *)
Theorem dynamics_straight_line_example :
  (mm = 1480 /\ Iz = 1950 /\ aa = 1.421 /\ bb = 1.029 /\ mi = 1 /\ gg = 9.81
   /\ dt = 1e-3)%R
  /\ (Beta 10 0 0 0 = (0, 0))%R
  /\ (Fy (Beta 10 0 0 0) = (0, 0))%R
  /\ next_state [0; 0; 0; 10; 0; 0]%R [0; 0]%R = Some [0.01; 0; 0; 10; 0; 0]%R.
Proof.
  split; [| split; [exact Beta_straight | split; [exact Fy_straight |]]].
  - repeat split; try reflexivity;
      unfold aa, bb, gg, dt; cbn; unfold Q2R; cbn; lra.
  - rewrite next_state_unfold. cbv zeta. rewrite Fy_straight.
    cbn [fst snd fadd fsub fmul fdiv fneg fsin fcos R_scalar].
    replace (0 - 0)%R with 0%R by ring.
    rewrite sin_0, cos_0, dt_R.
    by_entries; unfold Rdiv; try ring; lra.
Qed.

(** C2, as stated, fails: at the state [0,0,0,10,0,0] and the input [0,0],
    which meet both side conditions, row 2 of the returned [fx] is not
    [0,0,1,0,0,dt]; its last entry is 0. *)
Lemma fx_row2_is_not_the_constant_row :
  (10 <> 0 /\ cos 0 <> 0)%R
  /\ ~ (row 2 (grad_x [0; 0; 0; 10; 0; 0]%R [0; 0]%R) = Some Spec.fx_row2
        /\ row 5 (grad_x [0; 0; 0; 10; 0; 0]%R [0; 0]%R) = Some Spec.fx_row5).
Proof.
  split; [split; [lra | exact cos_0_neq_0] |].
  intros [H2 _]. rewrite fx_row_2 in H2. unfold Spec.fx_row2 in H2.
  assert (E : (IZR 0 = dt)%R) by congruence.
  rewrite dt_R in E. lra.
Qed.

(** C2, amended.  For every state with [x[3] <> 0] and [cos x[4] <> 0] and
    every input, row 5 of [fx] is the constant [0,0,dt,0,-dt,1]; the
    constant [0,0,1,0,0,dt] is column 2 of [fx], and row 2 is
    [dt*(-V*cos beta*sin psi - V*sin beta*cos psi),
     dt*(V*cos beta*cos psi - V*sin beta*sin psi), 1, 0, 0, 0]. *)
Theorem fx_row5_and_column2_constant (X Y psi V beta omega delta Fx : R) :
  V <> 0%R -> cos beta <> 0%R ->
  row 5 (grad_x [X; Y; psi; V; beta; omega] [delta; Fx]) = Some Spec.fx_row5
  /\ col 2 (grad_x [X; Y; psi; V; beta; omega] [delta; Fx]) = Some Spec.fx_row2
  /\ row 2 (grad_x [X; Y; psi; V; beta; omega] [delta; Fx])
     = Some [dt * (- V * cos beta * sin psi - V * sin beta * cos psi);
             dt * (V * cos beta * cos psi - V * sin beta * sin psi);
             1; 0; 0; 0]%R.
Proof.
  intros _ _. rewrite fx_row_5, fx_col_2, fx_row_2. repeat split.
Qed.

Lemma fx_row5_and_column2_constant_witness :
  row 5 (grad_x [0; 0; 0; 10; 0; 0]%R [0; 0]%R) = Some Spec.fx_row5
  /\ col 2 (grad_x [0; 0; 0; 10; 0; 0]%R [0; 0]%R) = Some Spec.fx_row2
  /\ row 2 (grad_x [0; 0; 0; 10; 0; 0]%R [0; 0]%R)
     = Some [dt * (- 10 * cos 0 * sin 0 - 10 * sin 0 * cos 0);
             dt * (10 * cos 0 * cos 0 - 10 * sin 0 * sin 0);
             1; 0; 0; 0]%R.
Proof.
  apply fx_row5_and_column2_constant; [lra | exact cos_0_neq_0].
Defined.

(** C3, as stated, fails: at the state [0,0,0,10,0,0] and the input [0,0]
    row 0 of the returned [fx] is [1,0,0,0,0,0], whose entry 3 is 0 and not
    [dt*(cos beta*cos psi - sin beta*sin psi)] = dt. *)
Lemma fx_row0_is_not_the_position_row :
  (10 <> 0 /\ cos 0 <> 0)%R
  /\ row 0 (grad_x [0; 0; 0; 10; 0; 0]%R [0; 0]%R) <> Some (Spec.fx_row0 0 10 0).
Proof.
  split; [split; [lra | exact cos_0_neq_0] |].
  rewrite fx_row_0. unfold Spec.fx_row0. intros E.
  assert (E3 : (IZR 0 = Spec.dX'_dV 0 0)%R) by congruence.
  unfold Spec.dX'_dV in E3. rewrite dt_R, sin_0, cos_0 in E3. lra.
Qed.

(** C3, amended.  For every state with [x[3] <> 0] and [cos x[4] <> 0] and
    every input, column 0 of [fx] is
    [1, 0, dt*(-V*cos beta*sin psi - V*sin beta*cos psi),
     dt*(cos beta*cos psi - sin beta*sin psi),
     dt*(-V*sin beta*cos psi - V*cos beta*sin psi), 0],
    and row 0 of [fx] is [1,0,0,0,0,0]. *)
Theorem fx_column0_holds_position_partials (X Y psi V beta omega delta Fx : R) :
  V <> 0%R -> cos beta <> 0%R ->
  col 0 (grad_x [X; Y; psi; V; beta; omega] [delta; Fx]) = Some (Spec.fx_row0 psi V beta)
  /\ row 0 (grad_x [X; Y; psi; V; beta; omega] [delta; Fx]) = Some [1; 0; 0; 0; 0; 0]%R.
Proof.
  intros _ _. rewrite fx_col_0, fx_row_0. split; reflexivity.
Qed.

Lemma fx_column0_holds_position_partials_witness :
  col 0 (grad_x [0; 0; 0; 10; 0; 0]%R [0; 0]%R) = Some (Spec.fx_row0 0 10 0)
  /\ row 0 (grad_x [0; 0; 0; 10; 0; 0]%R [0; 0]%R) = Some [1; 0; 0; 0; 0; 0]%R.
Proof.
  apply fx_column0_holds_position_partials; [lra | exact cos_0_neq_0].
Defined.

(** Over the reals, moving the position of the state by [(dX, dY)]
    moves components 0 and 1 of the next state by [dX] and [dY] and leaves
    the other four components and both gradient matrices as they were. *)
Lemma translation_is_exact_over_R (X Y psi V beta omega delta Fx dX dY : R) :
  next_state [X + dX; Y + dY; psi; V; beta; omega]%R [delta; Fx]
  = translate dX dY <$> next_state [X; Y; psi; V; beta; omega] [delta; Fx]
  /\ grad_x [X + dX; Y + dY; psi; V; beta; omega]%R [delta; Fx]
     = grad_x [X; Y; psi; V; beta; omega] [delta; Fx]
  /\ grad_u [X + dX; Y + dY; psi; V; beta; omega]%R [delta; Fx]
     = grad_u [X; Y; psi; V; beta; omega] [delta; Fx].
Proof.
  split; [| split; reflexivity].
  rewrite !next_state_unfold. cbv zeta.
  cbn [fmap option_fmap option_map translate fadd fsub fmul fdiv fneg fsin fcos R_scalar].
  by_entries; ring.
Qed.

(** C10, amended.  In every arithmetic the position enters the step only
    as the leading summand of components 0 and 1: for fixed heading,
    speed, sideslip, yaw rate and input there are increments [d0], [d1], a
    tail of four components and matrices [fx], [fu] such that every
    position [(X, Y)] steps to [X + d0, Y + d1] followed by that tail,
    with those matrices.  Over the reals this is a shift: moving the
    position by [(dX, dY)] moves components 0 and 1 of the next state by
    exactly [dX] and [dY]. *)
Theorem position_enters_as_leading_summand :
  (forall (F : Type) (H : Scalar F) (psi V beta omega delta Fx : F),
     exists (d0 d1 : F) (tail : list F) (fx fu : list (list F)),
       length tail = 4%nat
       /\ forall X Y : F,
            next_state [X; Y; psi; V; beta; omega] [delta; Fx]
            = Some ((X + d0) :: (Y + d1) :: tail)%num
            /\ grad_x [X; Y; psi; V; beta; omega] [delta; Fx] = Some fx
            /\ grad_u [X; Y; psi; V; beta; omega] [delta; Fx] = Some fu)
  /\ (forall X Y psi V beta omega delta Fx dX dY : R,
        next_state [X + dX; Y + dY; psi; V; beta; omega]%R [delta; Fx]
        = translate dX dY <$> next_state [X; Y; psi; V; beta; omega] [delta; Fx]
        /\ grad_x [X + dX; Y + dY; psi; V; beta; omega]%R [delta; Fx]
           = grad_x [X; Y; psi; V; beta; omega] [delta; Fx]
        /\ grad_u [X + dX; Y + dY; psi; V; beta; omega]%R [delta; Fx]
           = grad_u [X; Y; psi; V; beta; omega] [delta; Fx]).
Proof.
  split.
  - intros F H psi V beta omega delta Fx.
    do 5 eexists. split.
    2:{ intros X Y. split; [| split].
        - rewrite next_state_unfold. cbv zeta. reflexivity.
        - cbn -[dt mm Iz aa bb Fy Beta]. reflexivity.
        - cbn. reflexivity. }
    reflexivity.
  - apply translation_is_exact_over_R.
Qed.

(** ** The returned [fx] as a matrix of partial derivatives *)

Section Derivatives.
Local Open Scope R_scope.
Implicit Types f g : R -> R.

Lemma dl_value f x l l' : derivable_pt_lim f x l' -> l' = l -> derivable_pt_lim f x l.
Proof. intros Hd <-. exact Hd. Qed.

Lemma dl_const c x : derivable_pt_lim (fun _ => c) x 0.
Proof. exact (derivable_pt_lim_const c x). Qed.

Lemma dl_id x : derivable_pt_lim (fun t => t) x 1.
Proof. exact (derivable_pt_lim_id x). Qed.

Lemma dl_plus f g x l1 l2 :
  derivable_pt_lim f x l1 -> derivable_pt_lim g x l2 ->
  derivable_pt_lim (fun t => f t + g t) x (l1 + l2).
Proof. exact (derivable_pt_lim_plus f g x l1 l2). Qed.

Lemma dl_minus f g x l1 l2 :
  derivable_pt_lim f x l1 -> derivable_pt_lim g x l2 ->
  derivable_pt_lim (fun t => f t - g t) x (l1 - l2).
Proof. exact (derivable_pt_lim_minus f g x l1 l2). Qed.

Lemma dl_mult f g x l1 l2 :
  derivable_pt_lim f x l1 -> derivable_pt_lim g x l2 ->
  derivable_pt_lim (fun t => f t * g t) x (l1 * g x + f x * l2).
Proof. exact (derivable_pt_lim_mult f g x l1 l2). Qed.

Lemma dl_opp f x l :
  derivable_pt_lim f x l -> derivable_pt_lim (fun t => - f t) x (- l).
Proof. exact (derivable_pt_lim_opp f x l). Qed.

Lemma dl_sin f x l :
  derivable_pt_lim f x l -> derivable_pt_lim (fun t => sin (f t)) x (cos (f x) * l).
Proof.
  intros Hf. exact (derivable_pt_lim_comp f sin x l _ Hf (derivable_pt_lim_sin (f x))).
Qed.

Lemma dl_cos f x l :
  derivable_pt_lim f x l -> derivable_pt_lim (fun t => cos (f t)) x (- sin (f x) * l).
Proof.
  intros Hf. exact (derivable_pt_lim_comp f cos x l _ Hf (derivable_pt_lim_cos (f x))).
Qed.

Lemma dl_div f g x l1 l2 :
  derivable_pt_lim f x l1 -> derivable_pt_lim g x l2 -> g x <> 0 ->
  derivable_pt_lim (fun t => f t / g t) x ((l1 * g x - l2 * f x) / Rsqr (g x)).
Proof. exact (derivable_pt_lim_div f g x l1 l2). Qed.

End Derivatives.

(** Differentiates a function built from constants, the variable, [+],
    [-], [*], [/], [sin] and [cos]; leaves the side conditions of [/]. *)
Ltac differentiate :=
  lazymatch goal with
  | |- derivable_pt_lim (fun _ => ?c) _ _ => apply dl_const
  | |- derivable_pt_lim (fun t => t) _ _ => apply dl_id
  | |- derivable_pt_lim (fun t => (@?f t + @?g t)%R) _ _ =>
      eapply (dl_plus f g); differentiate
  | |- derivable_pt_lim (fun t => (@?f t - @?g t)%R) _ _ =>
      eapply (dl_minus f g); differentiate
  | |- derivable_pt_lim (fun t => (@?f t * @?g t)%R) _ _ =>
      eapply (dl_mult f g); differentiate
  | |- derivable_pt_lim (fun t => (@?f t / @?g t)%R) _ _ =>
      eapply (dl_div f g); [differentiate | differentiate |]
  | |- derivable_pt_lim (fun t => (- @?f t)%R) _ _ =>
      eapply (dl_opp f); differentiate
  | |- derivable_pt_lim (fun t => sin (@?f t)) _ _ =>
      eapply (dl_sin f); differentiate
  | |- derivable_pt_lim (fun t => cos (@?f t)) _ _ =>
      eapply (dl_cos f); differentiate
  end.

(** C9.  For every state and input, rows 0 and 1 of the returned [fx] are
    the basis vectors [1,0,0,0,0,0] and [0,1,0,0,0,0]; the partial
    derivatives of the position updates stand in rows 2, 3, 4 of columns 0
    and 1: column 0 is
    [1, 0, dt*(-V*cos beta*sin psi - V*sin beta*cos psi),
     dt*(cos beta*cos psi - sin beta*sin psi),
     dt*(-V*sin beta*cos psi - V*cos beta*sin psi), 0]
    and column 1 is
    [0, 1, dt*(V*cos beta*cos psi - V*sin beta*sin psi),
     dt*(cos beta*sin psi + sin beta*cos psi),
     dt*(-V*sin beta*sin psi + V*cos beta*cos psi), 0];
    and for every row [i] and each of the columns [j] = 0, 1, 2 the entry
    [fx[i][j]] is the partial derivative of component [j] of the next
    state with respect to component [i] of the state. *)
Theorem fx_is_laid_out_by_state_component
    (X Y psi V beta omega delta Fx : R) (i j : nat) :
  (i < 6)%nat -> (j < 3)%nat ->
  let xx := [X; Y; psi; V; beta; omega] in
  let uu := [delta; Fx] in
  row 0 (grad_x xx uu) = Some [1; 0; 0; 0; 0; 0]%R
  /\ row 1 (grad_x xx uu) = Some [0; 1; 0; 0; 0; 0]%R
  /\ col 0 (grad_x xx uu)
     = Some [1; 0;
             dt * (- V * cos beta * sin psi - V * sin beta * cos psi);
             dt * (cos beta * cos psi - sin beta * sin psi);
             dt * (- V * sin beta * cos psi - V * cos beta * sin psi);
             0]%R
  /\ col 1 (grad_x xx uu)
     = Some [0; 1;
             dt * (V * cos beta * cos psi - V * sin beta * sin psi);
             dt * (cos beta * sin psi + sin beta * cos psi);
             dt * (- V * sin beta * sin psi + V * cos beta * cos psi);
             0]%R
  /\ derivable_pt_lim (fun t => next_comp j (<[i := t]> xx) uu)
                      (default 0%R (xx !! i))
                      (fx_entry i j xx uu).
Proof.
  intros Hi Hj xx uu. subst xx uu.
  rewrite fx_row_0, fx_row_1, fx_col_0, fx_col_1.
  do 4 (split; [reflexivity |]).
  destruct i as [|[|[|[|[|[|i]]]]]]; try lia.
  all: destruct j as [|[|[|j]]]; try lia.
  all: cbn -[dt]; (eapply dl_value; [differentiate | ring]).
Qed.

Lemma fx_is_laid_out_by_state_component_witness :
  let xx := [0; 0; 0; 10; 0; 0]%R in
  let uu := [0; 0]%R in
  row 0 (grad_x xx uu) = Some [1; 0; 0; 0; 0; 0]%R
  /\ row 1 (grad_x xx uu) = Some [0; 1; 0; 0; 0; 0]%R
  /\ col 0 (grad_x xx uu)
     = Some [1; 0;
             dt * (- 10 * cos 0 * sin 0 - 10 * sin 0 * cos 0);
             dt * (cos 0 * cos 0 - sin 0 * sin 0);
             dt * (- 10 * sin 0 * cos 0 - 10 * cos 0 * sin 0);
             0]%R
  /\ col 1 (grad_x xx uu)
     = Some [0; 1;
             dt * (10 * cos 0 * cos 0 - 10 * sin 0 * sin 0);
             dt * (cos 0 * sin 0 + sin 0 * cos 0);
             dt * (- 10 * sin 0 * sin 0 + 10 * cos 0 * cos 0);
             0]%R
  /\ derivable_pt_lim (fun t => next_comp 0 (<[3%nat := t]> xx) uu)
                      (default 0%R (xx !! 3%nat))
                      (fx_entry 3 0 xx uu).
Proof.
  apply (fx_is_laid_out_by_state_component 0 0 0 10 0 0 0 0 3 0); lia.
Defined.

(** The other three columns: with the lateral forces held at their values
    at the state, every entry [fx[i][j]] is the partial derivative of
    component [j] of the step with respect to component [i] of the state. *)
Lemma next_state_is_frozen_step (X Y psi V beta omega delta Fx : R) :
  next_state [X; Y; psi; V; beta; omega] [delta; Fx]
  = Some (frozen_step (Fy (Beta V beta omega delta)) [X; Y; psi; V; beta; omega] [delta; Fx]).
Proof. reflexivity. Qed.

Lemma fx_is_gradient_at_frozen_forces
    (X Y psi V beta omega delta Fx : R) (i j : nat) :
  V <> 0%R -> (i < 6)%nat -> (j < 6)%nat ->
  let xx := [X; Y; psi; V; beta; omega] in
  let uu := [delta; Fx] in
  derivable_pt_lim
    (fun t => nth j (frozen_step (Fy (Beta V beta omega delta)) (<[i := t]> xx) uu) 0%R)
    (default 0%R (xx !! i))
    (fx_entry i j xx uu).
Proof.
  intros HV Hi Hj xx uu. subst xx uu.
  assert (Hm : (mm <> 0)%R) by (rewrite mm_R; lra).
  assert (HI : (Iz <> 0)%R) by (rewrite Iz_R; lra).
  assert (HmV : (mm * V <> 0)%R) by (apply Rmult_integral_contrapositive; tauto).
  destruct i as [|[|[|[|[|[|i]]]]]]; try lia.
  all: destruct j as [|[|[|[|[|[|j]]]]]]; try lia.
  all: cbn -[dt mm Iz aa bb Fy Beta].
  all: generalize (Fy (Beta V beta omega delta)); intros [Fyf Fyr].
  all: cbn [fst snd].
  all: eapply dl_value; [differentiate; assumption | unfold Rsqr; field; auto].
Qed.

(** ** The model in binary64: the standstill singularity *)

Section Binary64.
Implicit Types x y : spec_float.

Lemma nonfinite_add_l x y : nonfinite x = true -> nonfinite (B64.add x y) = true.
Proof. destruct x as [| [] | |], y as [| [] | |]; simpl; congruence. Qed.

Lemma nonfinite_add_r x y : nonfinite y = true -> nonfinite (B64.add x y) = true.
Proof. destruct x as [| [] | |], y as [| [] | |]; simpl; congruence. Qed.

Lemma nonfinite_sub_l x y : nonfinite x = true -> nonfinite (B64.sub x y) = true.
Proof. destruct x as [| [] | |], y as [| [] | |]; simpl; congruence. Qed.

Lemma nonfinite_sub_r x y : nonfinite y = true -> nonfinite (B64.sub x y) = true.
Proof. destruct x as [| [] | |], y as [| [] | |]; simpl; congruence. Qed.

Lemma nonfinite_mul_l x y : nonfinite x = true -> nonfinite (B64.mul x y) = true.
Proof. destruct x, y; simpl; congruence. Qed.

Lemma nonfinite_mul_r x y : nonfinite y = true -> nonfinite (B64.mul x y) = true.
Proof. destruct x, y; simpl; congruence. Qed.

Lemma nonfinite_opp x : nonfinite x = true -> nonfinite (SFopp x) = true.
Proof. destruct x; simpl; congruence. Qed.

(** A quotient with a non-finite numerator is non-finite: [inf / inf] is
    NaN and [inf / y] is infinite for every other [y]. *)
Lemma nonfinite_div_l x y : nonfinite x = true -> nonfinite (B64.div x y) = true.
Proof. destruct x, y; simpl; congruence. Qed.

(** Division by zero does not trap: [0 / 0] is NaN, [x / 0] is infinite. *)
Lemma nonfinite_div_zero x y : zero_or_nan y = true -> nonfinite (B64.div x y) = true.
Proof. destruct x, y; simpl; congruence. Qed.

Lemma zero_or_nan_mul_l x y : zero_or_nan x = true -> zero_or_nan (B64.mul x y) = true.
Proof. destruct x, y; simpl; congruence. Qed.

Lemma zero_or_nan_mul_r x y : zero_or_nan y = true -> zero_or_nan (B64.mul x y) = true.
Proof. destruct x, y; simpl; congruence. Qed.

Lemma zero_or_nan_zero s : zero_or_nan (S754_zero s) = true.
Proof. reflexivity. Qed.

End Binary64.

Create HintDb nonfinite.
#[export] Hint Resolve nonfinite_add_l nonfinite_add_r nonfinite_sub_l nonfinite_sub_r
  nonfinite_mul_l nonfinite_mul_r nonfinite_opp nonfinite_div_l nonfinite_div_zero
  zero_or_nan_mul_l zero_or_nan_mul_r zero_or_nan_zero : nonfinite.

Section Standstill.
Variables libm_sin libm_cos libm_sqr : spec_float -> spec_float.
Variable s : bool.
Variables beta omega delta : spec_float.

(** With [x[3] = 0] the divisor [x[3] * cos x[4]] of both slip angles is a
    zero or a NaN. *)
Lemma Beta_standstill :
  nonfinite (Beta (H := B64_scalar libm_sin libm_cos libm_sqr) (S754_zero s) beta omega delta).1 = true
  /\ nonfinite (Beta (H := B64_scalar libm_sin libm_cos libm_sqr) (S754_zero s) beta omega delta).2 = true.
Proof.
  unfold Beta. cbn [fst snd fadd fsub fmul fdiv fneg fsin fcos B64_scalar].
  split; auto 6 with nonfinite.
Qed.

Lemma Fy_standstill :
  nonfinite (Fy (H := B64_scalar libm_sin libm_cos libm_sqr)
                 (Beta (H := B64_scalar libm_sin libm_cos libm_sqr) (S754_zero s) beta omega delta)).1 = true
  /\ nonfinite (Fy (H := B64_scalar libm_sin libm_cos libm_sqr)
                    (Beta (H := B64_scalar libm_sin libm_cos libm_sqr) (S754_zero s) beta omega delta)).2 = true.
Proof.
  destruct Beta_standstill as [B1 B2]. unfold Fy.
  cbn [fst snd fmul B64_scalar] in *.
  split; auto with nonfinite.
Qed.

End Standstill.

(** C7.  In binary64, for every input and every state whose speed [x[3]]
    is zero (of either sign), the call returns, and what it returns holds
    an infinity or a NaN wherever a slip angle enters: both slip angles and
    both lateral forces are non-finite, and so are components 3, 4 and 5 of
    the next state and the entries [fx[3][4]], [fx[4][3]] and [fx[4][4]].
    This holds whatever [np.sin], [np.cos] and [** 2] return. *)
Theorem dynamics_standstill_gives_inf_or_nan
    (libm_sin libm_cos libm_sqr : spec_float -> spec_float) (s : bool)
    (X Y psi beta omega delta Fx : spec_float) :
  let arith := B64_scalar libm_sin libm_cos libm_sqr in
  let xx := [X; Y; psi; S754_zero s; beta; omega] in
  let uu := [delta; Fx] in
  is_Some (dynamics xx uu)
  /\ nonfinite (Beta (S754_zero s) beta omega delta).1 = true
  /\ nonfinite (Beta (S754_zero s) beta omega delta).2 = true
  /\ nonfinite (Fy (Beta (S754_zero s) beta omega delta)).1 = true
  /\ nonfinite (Fy (Beta (S754_zero s) beta omega delta)).2 = true
  /\ Forall (fun j => returns_nonfinite (next_state xx uu ≫= (.!! j)) = true) [3; 4; 5]%nat
  /\ Forall (fun ij => returns_nonfinite (entry ij.1 ij.2 (grad_x xx uu)) = true)
            [(3, 4); (4, 3); (4, 4)]%nat.
Proof.
  intros arith xx uu.
  destruct (Fy_standstill libm_sin libm_cos libm_sqr s beta omega delta) as [F1 F2].
  destruct (Beta_standstill libm_sin libm_cos libm_sqr s beta omega delta) as [B1 B2].
  split; [eexists; reflexivity |].
  do 4 (split; [assumption |]).
  subst xx uu.
  split; repeat constructor.
  all: cbn -[Fy Beta dt mm Iz aa bb B64.add B64.sub B64.mul B64.div SFopp] in *.
  all: auto 12 with nonfinite.
Qed.

(** The example of C6 in binary64.  Any libm has [sin 0 = 0] and
    [cos 0 = 1]; with these the next state is made of the doubles nearest
    to 0.01 and 10 and of zeros, bit for bit. *)
Section StraightLineBinary64.
Variables libm_sin libm_cos libm_sqr : spec_float -> spec_float.
Hypothesis sin_zero : libm_sin (S754_zero false) = S754_zero false.
Hypothesis cos_zero : libm_cos (S754_zero false) = B64.of_Z 1.

Lemma dynamics_straight_line_binary64 :
  next_state (H := B64_scalar libm_sin libm_cos libm_sqr) (B64.of_Z <$> [0; 0; 0; 10; 0; 0]%Z) (B64.of_Z <$> [0; 0]%Z)
  = Some [B64.of_Q (1 # 100); B64.of_Z 0; B64.of_Z 0; B64.of_Z 10; B64.of_Z 0; B64.of_Z 0].
Proof.
  change (B64.of_Z <$> [0; 0; 0; 10; 0; 0]%Z)
    with [S754_zero false; S754_zero false; S754_zero false; B64.of_Z 10;
          S754_zero false; S754_zero false].
  change (B64.of_Z <$> [0; 0]%Z) with [S754_zero false; S754_zero false].
  rewrite next_state_unfold. cbv zeta.
  unfold Fy, Beta, Fz.
  cbn [fst snd fadd fsub fmul fdiv fneg fsin fcos B64_scalar].
  change (B64.sub (S754_zero false) (S754_zero false)) with (S754_zero false).
  rewrite !sin_zero, !cos_zero.
  vm_compute. reflexivity.
Qed.

(** The shift of C10 in binary64.  The moved call rounds [(X + dX) + d],
    the shifted result rounds [(X + d) + dX]; at [X = 0.1], [dX = 0.2] the
    two doubles differ in the last place.  The exact shift is a property
    of real addition. *)
Lemma translation_rounds_in_binary64 :
  next_state (H := B64_scalar libm_sin libm_cos libm_sqr)
    (B64.add (B64.of_Q (1 # 10)) (B64.of_Q (2 # 10))
       :: (B64.of_Z <$> [0; 0; 10; 0; 0]%Z)) (B64.of_Z <$> [0; 0]%Z) ≫= (.!! 0%nat)
  <> (fun x' => B64.add x' (B64.of_Q (2 # 10)))
     <$> (next_state (H := B64_scalar libm_sin libm_cos libm_sqr)
            (B64.of_Q (1 # 10) :: (B64.of_Z <$> [0; 0; 10; 0; 0]%Z))
            (B64.of_Z <$> [0; 0]%Z) ≫= (.!! 0%nat)).
Proof.
  change (B64.of_Z <$> [0; 0; 10; 0; 0]%Z)
    with [S754_zero false; S754_zero false; B64.of_Z 10;
          S754_zero false; S754_zero false].
  change (B64.of_Z <$> [0; 0]%Z) with [S754_zero false; S754_zero false].
  rewrite !next_state_unfold. cbv zeta.
  cbn [mbind option_bind lookup list_lookup fmap option_fmap option_map
       fadd fsub fmul fdiv fneg fsin fcos B64_scalar].
  rewrite !sin_zero, !cos_zero.
  vm_compute. discriminate.
Qed.

End StraightLineBinary64.

(** C10, as stated, fails in binary64.  At the state [0.1, 0, 0, 10, 0, 0],
    the input [0, 0] and the offset [dX = 0.2], for every C library with
    [sin 0 = 0] and [cos 0 = 1]: the call on the moved state returns
    0.31000000000000005 in component 0, the call on the state returns 0.11,
    and 0.11 + 0.2 is 0.31. *)
Lemma translation_is_not_exact_in_binary64 :
  let moved := S754_finite false 5584463537939416 (-54) in
  let shifted := S754_finite false 5584463537939415 (-54) in
  let X := B64.of_Q (1 # 10) in
  let dX := B64.of_Q (2 # 10) in
  let rest := [S754_zero false; S754_zero false; B64.of_Z 10; S754_zero false; S754_zero false] in
  moved <> shifted
  /\ forall libm_sin libm_cos libm_sqr : spec_float -> spec_float,
       libm_sin (S754_zero false) = S754_zero false ->
       libm_cos (S754_zero false) = B64.of_Z 1 ->
       next_state (H := B64_scalar libm_sin libm_cos libm_sqr)
         (B64.add X dX :: rest) [S754_zero false; S754_zero false] ≫= (.!! 0%nat)
       = Some moved
       /\ (fun x' => B64.add x' dX)
            <$> (next_state (H := B64_scalar libm_sin libm_cos libm_sqr)
                   (X :: rest) [S754_zero false; S754_zero false] ≫= (.!! 0%nat))
          = Some shifted.
Proof.
  intros moved shifted X dX rest. split; [discriminate |].
  intros libm_sin libm_cos libm_sqr sin_zero cos_zero.
  subst rest. rewrite !next_state_unfold. cbv zeta.
  cbn [mbind option_bind lookup list_lookup fmap option_fmap option_map
       fadd fsub fmul fdiv fneg fsin fcos B64_scalar].
  rewrite !sin_zero, !cos_zero.
  split; vm_compute; reflexivity.
Qed.

(** ** Further properties of [dynamics] *)

(** X3.  Whatever the arguments hold, a call that returns hands back a
    next state of [ns] = 6 entries, an [fx] of 6 rows of 6 entries and an
    [fu] of [ni] = 2 rows of 6 entries. *)
Theorem dynamics_shapes {F : Type} `{Scalar F} (xx uu xxp : list F) (fx fu : list (list F)) :
  dynamics xx uu = Some (xxp, fx, fu) ->
  length xxp = ns
  /\ length fx = ns /\ Forall (fun r => length r = ns) fx
  /\ length fu = ni /\ Forall (fun r => length r = ns) fu.
Proof.
  intros Hd.
  assert (Hs : is_Some (dynamics xx uu)) by (rewrite Hd; eauto).
  apply dynamics_returns in Hs. destruct Hs as [Hx Hu].
  do 6 (destruct xx as [|? xx]; simpl in Hx; try lia).
  do 2 (destruct uu as [|? uu]; simpl in Hu; try lia).
  cbv [dynamics mbind option_bind lookup list_lookup] in Hd.
  injection Hd as <- <- <-.
  repeat split; repeat constructor.
Qed.

Lemma dynamics_shapes_witness :
  exists xxp fx fu,
    dynamics [0; 0; 0; 10; 0; 0]%R [0; 0]%R = Some (xxp, fx, fu)
    /\ length xxp = 6%nat
    /\ length fx = 6%nat /\ Forall (fun r => length r = 6%nat) fx
    /\ length fu = 2%nat /\ Forall (fun r => length r = 6%nat) fu.
Proof.
  do 3 eexists. split; [reflexivity |].
  apply (dynamics_shapes [0; 0; 0; 10; 0; 0]%R [0; 0]%R). reflexivity.
Defined.

(** X1.  The call fails (an [IndexError], here [None]) exactly when the
    state has fewer than six entries or the input fewer than two; the
    values of the entries play no part. *)
Theorem dynamics_fails_iff_too_short {F : Type} `{Scalar F} (xx uu : list F) :
  dynamics xx uu = None <-> (length xx < 6)%nat \/ (length uu < 2)%nat.
Proof.
  pose proof (dynamics_returns xx uu) as [Hr Hl].
  split.
  - intros Hn.
    destruct (decide (length xx < 6)%nat) as [|Hx]; [now left |].
    destruct (decide (length uu < 2)%nat) as [|Hu]; [now right |].
    exfalso. destruct Hl as [r Hr']; [lia |]. congruence.
  - intros Hs. destruct (dynamics xx uu) eqn:E; [| reflexivity].
    exfalso. destruct Hr as [Hx Hu]; [eauto | lia].
Qed.

(** X2.  Entries after the sixth of the state and after the second of the
    input are never read: a longer argument gives the result of its
    prefix. *)
Theorem dynamics_ignores_trailing_entries {F : Type} `{Scalar F}
    (xx uu more_x more_u : list F) :
  length xx = 6%nat -> length uu = 2%nat ->
  dynamics (xx ++ more_x) (uu ++ more_u) = dynamics xx uu.
Proof.
  intros Hx Hu. apply dynamics_reads_prefix.
  - rewrite take_app_le by lia. reflexivity.
  - rewrite take_app_le by lia. reflexivity.
Qed.

Lemma dynamics_ignores_trailing_entries_witness :
  dynamics ([0; 0; 0; 10; 0; 0] ++ [7; 8])%R ([0; 0] ++ [9])%R
  = dynamics [0; 0; 0; 10; 0; 0]%R [0; 0]%R.
Proof.
  apply (dynamics_ignores_trailing_entries [0; 0; 0; 10; 0; 0]%R [0; 0]%R); reflexivity.
Defined.

Section ModelOverR.
Local Open Scope R_scope.

Lemma aa_R : aa = 1421 / 1000.
Proof. unfold aa; cbn; unfold Q2R; cbn; lra. Qed.

Lemma bb_R : bb = 1029 / 1000.
Proof. unfold bb; cbn; unfold Q2R; cbn; lra. Qed.

Lemma gg_R : gg = 981 / 100.
Proof. unfold gg; cbn; unfold Q2R; cbn; lra. Qed.

Lemma mi_R : mi = 1.
Proof. reflexivity. Qed.

Lemma Fz_R : Fz = (1480 * (981 / 100) * (1029 / 1000) / (2450 / 1000),
                   1480 * (981 / 100) * (1421 / 1000) / (2450 / 1000)).
Proof.
  unfold Fz. cbn [fadd fmul fdiv R_scalar].
  rewrite mm_R, gg_R, aa_R, bb_R. f_equal; f_equal; lra.
Qed.

Lemma Fz_positive : 0 < Fz.1 /\ 0 < Fz.2.
Proof.
  rewrite Fz_R. cbn [fst snd]. split; apply Rdiv_lt_0_compat; lra.
Qed.

End ModelOverR.

(** X7.  Straight driving is kept: over the reals, from a state with no
    sideslip and no yaw rate, under zero steering and any drive force, the
    vehicle with speed [V <> 0] moves [dt * V] along its heading, gains
    [dt * Fx / m] of speed, and keeps heading, sideslip and yaw rate. *)
Theorem straight_driving_is_kept (X Y psi V Fx : R) :
  V <> 0%R ->
  next_state [X; Y; psi; V; 0; 0]%R [0; Fx]%R
  = Some [X + dt * (V * cos psi); Y + dt * (V * sin psi); psi;
          V + dt * (Fx / mm); 0; 0]%R.
Proof.
  intros HV.
  assert (HB : (Beta V 0 0 0 = (0, 0))%R).
  { unfold Beta. cbn [fadd fsub fmul fdiv fneg fsin fcos R_scalar].
    rewrite sin_0, cos_0. f_equal; field; lra. }
  assert (HF : (Fy (Beta V 0 0 0) = (0, 0))%R).
  { rewrite HB. unfold Fy. cbn [fst snd fmul R_scalar]. f_equal; ring. }
  rewrite next_state_unfold. cbv zeta. rewrite HF.
  cbn [fst snd fadd fsub fmul fdiv fneg fsin fcos R_scalar].
  replace (0 - 0)%R with 0%R by ring.
  rewrite sin_0, cos_0.
  assert (Hm : (mm <> 0)%R) by (rewrite mm_R; lra).
  assert (HI : (Iz <> 0)%R) by (rewrite Iz_R; lra).
  by_entries; field; repeat split; assumption.
Qed.

Lemma straight_driving_is_kept_witness :
  next_state [0; 0; 0; 10; 0; 0]%R [0; 5]%R
  = Some [0 + dt * (10 * cos 0); 0 + dt * (10 * sin 0); 0;
          10 + dt * (5 / mm); 0; 0]%R.
Proof.
  apply (straight_driving_is_kept 0 0 0 10 5). lra.
Defined.

(** X8.  Over the reals the position moves along the course angle
    [psi + beta]: [X' = X + dt*V*cos(psi + beta)] and
    [Y' = Y + dt*V*sin(psi + beta)], so one step covers the distance
    [dt * |V|] whatever the forces and the input are. *)
Theorem position_moves_along_course (X Y psi V beta omega delta Fx : R) :
  let xx := [X; Y; psi; V; beta; omega] in
  let uu := [delta; Fx] in
  (next_comp 0 xx uu = X + dt * (V * cos (psi + beta))
   /\ next_comp 1 xx uu = Y + dt * (V * sin (psi + beta))
   /\ (next_comp 0 xx uu - X) ^ 2 + (next_comp 1 xx uu - Y) ^ 2 = (dt * V) ^ 2)%R.
Proof.
  intros xx uu. subst xx uu. cbn -[dt pow].
  rewrite cos_plus, sin_plus.
  split; [ring | split; [ring |]].
  pose proof (sin2_cos2 psi) as Hp. pose proof (sin2_cos2 beta) as Hb.
  unfold Rsqr in Hp, Hb.
  replace ((X + dt * (V * cos beta * cos psi - V * sin beta * sin psi) - X) ^ 2
           + (Y + dt * (V * cos beta * sin psi + V * sin beta * cos psi) - Y) ^ 2)%R
    with ((dt * V) ^ 2 * ((sin psi * sin psi + cos psi * cos psi)
                          * (sin beta * sin beta + cos beta * cos beta)))%R by ring.
  rewrite Hp, Hb. ring.
Qed.

(** X11.  Over the reals, where [x[3] <> 0] and [cos x[4] <> 0], the slip
    angles are [delta - tan beta - a*omega/(V*cos beta)] at the front and
    [- tan beta + b*omega/(V*cos beta)] at the rear. *)
Theorem slip_angles_closed_form (V beta omega delta : R) :
  V <> 0%R -> cos beta <> 0%R ->
  Beta V beta omega delta
  = (delta - tan beta - aa * omega / (V * cos beta),
     - tan beta + bb * omega / (V * cos beta))%R.
Proof.
  intros HV Hc. unfold Beta, tan.
  cbn [fadd fsub fmul fdiv fneg fsin fcos R_scalar].
  f_equal; field; auto.
Qed.

Lemma slip_angles_closed_form_witness :
  Beta 10%R 0%R 1%R 0%R
  = (0 - tan 0 - aa * 1 / (10 * cos 0), - tan 0 + bb * 1 / (10 * cos 0))%R.
Proof.
  apply (slip_angles_closed_form 10 0 1 0); [lra | exact cos_0_neq_0].
Defined.

(** Over the reals the static loads carry the weight and balance about
    the centre of gravity: [Fz_f + Fz_r = m*g] and [a*Fz_f = b*Fz_r], both
    loads positive.  (In binary64 the computed sum is rounded.) *)
Lemma static_loads_balance :
  (Fz.1 + Fz.2 = mm * gg /\ aa * Fz.1 = bb * Fz.2 /\ 0 < Fz.1 /\ 0 < Fz.2)%R.
Proof.
  pose proof Fz_positive as [H1 H2].
  split; [| split; [| split; assumption]].
  - rewrite Fz_R. cbn [fst snd]. rewrite mm_R, gg_R. lra.
  - rewrite Fz_R. cbn [fst snd]. rewrite aa_R, bb_R. lra.
Qed.

(** X16.  Over the reals the position block of [fx] is tied to the step it
    differentiates: turning the heading moves the end point at right
    angles to the displacement ([fx[2][0] = -(Y'-Y)], [fx[2][1] = X'-X]),
    sideslip acts as heading does (row 4 repeats row 2 in columns 0, 1),
    and speed scales the displacement ([V*fx[3][0] = X'-X],
    [V*fx[3][1] = Y'-Y]). *)
Theorem fx_position_block (X Y psi V beta omega delta Fx : R) :
  let xx := [X; Y; psi; V; beta; omega] in
  let uu := [delta; Fx] in
  (fx_entry 2 0 xx uu = - (next_comp 1 xx uu - Y)
   /\ fx_entry 2 1 xx uu = next_comp 0 xx uu - X
   /\ fx_entry 4 0 xx uu = fx_entry 2 0 xx uu
   /\ fx_entry 4 1 xx uu = fx_entry 2 1 xx uu
   /\ V * fx_entry 3 0 xx uu = next_comp 0 xx uu - X
   /\ V * fx_entry 3 1 xx uu = next_comp 1 xx uu - Y)%R.
Proof.
  intros xx uu. subst xx uu. cbn -[dt].
  repeat split; ring.
Qed.

(** X9.  Over the reals the step turns with the heading: a state whose
    heading is turned by [theta] steps to the next state turned by [theta]
    about the position it started from; speed, sideslip and yaw rate of
    the next state, and every entry of [fx] outside columns 0 and 1, are
    unchanged. *)
Theorem heading_turn_equivariant (X Y psi V beta omega delta Fx theta : R) :
  next_state [X; Y; psi + theta; V; beta; omega]%R [delta; Fx]
  = turn_about X Y theta <$> next_state [X; Y; psi; V; beta; omega] [delta; Fx]
  /\ map (drop 2) <$> grad_x [X; Y; psi + theta; V; beta; omega]%R [delta; Fx]
     = map (drop 2) <$> grad_x [X; Y; psi; V; beta; omega] [delta; Fx].
Proof.
  split; [| reflexivity].
  rewrite !next_state_unfold. cbv zeta.
  cbn [fmap option_fmap option_map turn_about fadd fsub fmul fdiv fneg fsin fcos R_scalar].
  rewrite cos_plus, sin_plus.
  by_entries; ring.
Qed.

(** X10.  Over the reals the model does not tell left from right: the
    mirrored state under the mirrored input steps to the mirror image of
    the next state. *)
Theorem mirror_symmetric (X Y psi V beta omega delta Fx : R) :
  next_state (mirror_state [X; Y; psi; V; beta; omega]) (mirror_input [delta; Fx])
  = mirror_state <$> next_state [X; Y; psi; V; beta; omega] [delta; Fx].
Proof.
  cbn [mirror_state mirror_input].
  rewrite !next_state_unfold. cbv zeta.
  unfold Fy, Beta.
  cbn [fst snd fmap option_fmap option_map mirror_state
       fadd fsub fmul fdiv fneg fsin fcos R_scalar].
  replace (- beta - - delta)%R with (- (beta - delta))%R by ring.
  rewrite !sin_neg, !cos_neg.
  by_entries; unfold Rdiv; ring.
Qed.

(** X4.  The step is the six equations at the lateral forces of the
    state, and [fx] is their gradient with those forces held fixed: where
    [x[3] <> 0], every entry [fx[i][j]] is the partial derivative of
    equation [j] with respect to state component [i]. *)
Theorem fx_is_gradient_of_frozen_step
    (X Y psi V beta omega delta Fx : R) (i j : nat) :
  V <> 0%R -> (i < 6)%nat -> (j < 6)%nat ->
  let xx := [X; Y; psi; V; beta; omega] in
  let uu := [delta; Fx] in
  let FY := Fy (Beta V beta omega delta) in
  next_state xx uu = Some (frozen_step FY xx uu)
  /\ derivable_pt_lim (fun t => nth j (frozen_step FY (<[i := t]> xx) uu) 0%R)
                      (default 0%R (xx !! i))
                      (fx_entry i j xx uu).
Proof.
  intros HV Hi Hj xx uu FY. split.
  - apply next_state_is_frozen_step.
  - apply fx_is_gradient_at_frozen_forces; assumption.
Qed.

Lemma fx_is_gradient_of_frozen_step_witness :
  let xx := [0; 0; 0; 10; 0; 0]%R in
  let uu := [0; 0]%R in
  let FY := Fy (Beta 10 0 0 0)%R in
  next_state xx uu = Some (frozen_step FY xx uu)
  /\ derivable_pt_lim (fun t => nth 4 (frozen_step FY (<[3%nat := t]> xx) uu) 0%R)
                      (default 0%R (xx !! 3%nat))
                      (fx_entry 3 4 xx uu).
Proof.
  apply (fx_is_gradient_of_frozen_step 0 0 0 10 0 0 0 0 3 4); [lra | lia | lia].
Defined.

(** X5.  [fx] is not the gradient of the step itself: the lateral forces
    depend on the state and their derivatives are left out.  Where
    [x[3] <> 0], [cos x[4] <> 0] and [cos delta >= 0], the partial
    derivative of the next yaw rate with respect to the yaw rate is
    [1 - dt*(mu*Fz_f*a^2*cos delta + mu*Fz_r*b^2)/(V*cos beta)/Iz],
    while [fx[5][5]] is 1, which is not that derivative. *)
Theorem fx_leaves_out_force_derivatives (X Y psi V beta omega delta Fx : R) :
  V <> 0%R -> cos beta <> 0%R -> (0 <= cos delta)%R ->
  let xx := [X; Y; psi; V; beta; omega] in
  let uu := [delta; Fx] in
  derivable_pt_lim (fun t => next_comp 5 (<[5%nat := t]> xx) uu) omega
    (1 - dt * ((mi * Fz.1 * aa * aa * cos delta + mi * Fz.2 * bb * bb)
               / (V * cos beta) / Iz))%R
  /\ fx_entry 5 5 xx uu = 1%R
  /\ ~ derivable_pt_lim (fun t => next_comp 5 (<[5%nat := t]> xx) uu) omega
         (fx_entry 5 5 xx uu).
Proof.
  intros HV Hc Hd xx uu. subst xx uu.
  assert (HVc : (V * cos beta <> 0)%R) by (apply Rmult_integral_contrapositive; tauto).
  assert (HI : (Iz <> 0)%R) by (rewrite Iz_R; lra).
  assert (D : derivable_pt_lim
                (fun t => next_comp 5 (<[5%nat := t]> [X; Y; psi; V; beta; omega]) [delta; Fx])
                omega
                (1 - dt * ((mi * Fz.1 * aa * aa * cos delta + mi * Fz.2 * bb * bb)
                           / (V * cos beta) / Iz))%R).
  { cbn -[dt mm Iz aa bb mi Fz].
    eapply dl_value; [differentiate; assumption | unfold Rsqr; field; auto]. }
  split; [exact D | split; [reflexivity |]].
  intros D1.
  pose proof (uniqueness_limite _ _ _ _ D D1) as E.
  change (fx_entry 5 5 [X; Y; psi; V; beta; omega] [delta; Fx]) with 1%R in E.
  destruct Fz_positive as [P1 P2].
  assert (Hs : (0 < mi * Fz.1 * aa * aa * cos delta + mi * Fz.2 * bb * bb)%R).
  { rewrite mi_R, aa_R, bb_R.
    assert (0 <= Fz.1 * cos delta)%R by (apply Rmult_le_pos; lra).
    nra. }
  assert (Hq : (dt * ((mi * Fz.1 * aa * aa * cos delta + mi * Fz.2 * bb * bb)
                      / (V * cos beta) / Iz) <> 0)%R).
  { rewrite dt_R. unfold Rdiv.
    repeat apply Rmult_integral_contrapositive_currified;
      try lra; try (apply Rinv_neq_0_compat; assumption). }
  lra.
Qed.

Lemma fx_leaves_out_force_derivatives_witness :
  let xx := [0; 0; 0; 10; 0; 0]%R in
  let uu := [0; 0]%R in
  derivable_pt_lim (fun t => next_comp 5 (<[5%nat := t]> xx) uu) 0%R
    (1 - dt * ((mi * Fz.1 * aa * aa * cos 0 + mi * Fz.2 * bb * bb)
               / (10 * cos 0) / Iz))%R
  /\ fx_entry 5 5 xx uu = 1%R
  /\ ~ derivable_pt_lim (fun t => next_comp 5 (<[5%nat := t]> xx) uu) 0%R
         (fx_entry 5 5 xx uu).
Proof.
  apply (fx_leaves_out_force_derivatives 0 0 0 10 0 0 0 0);
    [lra | exact cos_0_neq_0 | rewrite cos_0; lra].
Defined.

(** X6.  [fu] is not the gradient of the step with respect to the input:
    the partial derivative of the next speed with respect to the drive
    force [u[1]] is [dt*cos(beta - delta)/m], while [fu[1][3]] is 0, which
    is not that derivative where [cos(beta - delta) <> 0]. *)
Theorem fu_is_not_the_input_gradient (X Y psi V beta omega delta Fx : R) :
  cos (beta - delta) <> 0%R ->
  let xx := [X; Y; psi; V; beta; omega] in
  derivable_pt_lim (fun t => next_comp 3 xx [delta; t]) Fx
    (dt * (cos (beta - delta) / mm))%R
  /\ entry 1 3 (grad_u xx [delta; Fx]) = Some 0%R
  /\ ~ derivable_pt_lim (fun t => next_comp 3 xx [delta; t]) Fx 0%R.
Proof.
  intros Hc xx. subst xx.
  assert (Hm : (mm <> 0)%R) by (rewrite mm_R; lra).
  assert (D : derivable_pt_lim
                (fun t => next_comp 3 [X; Y; psi; V; beta; omega] [delta; t]) Fx
                (dt * (cos (beta - delta) / mm))%R).
  { cbn -[dt mm Fy Beta].
    generalize (Fy (Beta V beta omega delta)); intros [Fyf Fyr]. cbn [fst snd].
    eapply dl_value; [differentiate; assumption | unfold Rsqr; field; auto]. }
  split; [exact D | split; [reflexivity |]].
  intros D0.
  pose proof (uniqueness_limite _ _ _ _ D D0) as E.
  rewrite dt_R in E. unfold Rdiv in E.
  apply Rmult_integral in E. destruct E as [E | E]; [lra |].
  apply Rmult_integral in E. destruct E as [E | E]; [contradiction |].
  apply Rinv_neq_0_compat in Hm. contradiction.
Qed.

Lemma fu_is_not_the_input_gradient_witness :
  let xx := [0; 0; 0; 10; 0; 0]%R in
  derivable_pt_lim (fun t => next_comp 3 xx [0%R; t]) 0%R
    (dt * (cos (0 - 0) / mm))%R
  /\ entry 1 3 (grad_u xx [0; 0]%R) = Some 0%R
  /\ ~ derivable_pt_lim (fun t => next_comp 3 xx [0%R; t]) 0%R 0%R.
Proof.
  apply (fu_is_not_the_input_gradient 0 0 0 10 0 0 0 0).
  replace (0 - 0)%R with 0%R by ring. exact cos_0_neq_0.
Defined.

(** X15.  Over the reals the step is affine in the drive force [u[1]]:
    the force leaves position and heading alone and adds to the next
    speed, sideslip and yaw rate in proportion, by [dt*cos(beta-delta)/m],
    [-dt*sin(beta-delta)/(m*V)] and [dt*a*sin(delta)/Iz] per unit. *)
Theorem drive_force_enters_affinely (X Y psi V beta omega delta Fx : R) :
  let xx := [X; Y; psi; V; beta; omega] in
  (take 3 <$> next_state xx [delta; Fx] = take 3 <$> next_state xx [delta; 0%R]
   /\ next_comp 3 xx [delta; Fx]
      = next_comp 3 xx [delta; 0] + Fx * (dt * (cos (beta - delta) / mm))
   /\ next_comp 4 xx [delta; Fx]
      = next_comp 4 xx [delta; 0] - Fx * (dt * (sin (beta - delta) / (mm * V)))
   /\ next_comp 5 xx [delta; Fx]
      = next_comp 5 xx [delta; 0] + Fx * (dt * (sin delta * aa / Iz)))%R.
Proof.
  intros xx. subst xx. split; [reflexivity |].
  cbn -[dt mm Iz aa bb Fy Beta].
  generalize (Fy (Beta V beta omega delta)); intros [Fyf Fyr]. cbn [fst snd].
  unfold Rdiv. repeat split; ring.
Qed.

(** ** Further properties in binary64 *)

(** Once both lateral forces are non-finite, so is everything computed
    from them. *)
Lemma nonfinite_forces_spread
    (libm_sin libm_cos libm_sqr : spec_float -> spec_float)
    (X Y psi V beta omega delta Fx : spec_float) :
  let arith := B64_scalar libm_sin libm_cos libm_sqr in
  let xx := [X; Y; psi; V; beta; omega] in
  let uu := [delta; Fx] in
  nonfinite (Fy (Beta V beta omega delta)).1 = true ->
  nonfinite (Fy (Beta V beta omega delta)).2 = true ->
  Forall (fun j => returns_nonfinite (next_state xx uu ≫= (.!! j)) = true) [3; 4; 5]%nat
  /\ Forall (fun ij => returns_nonfinite (entry ij.1 ij.2 (grad_x xx uu)) = true)
            [(3, 4); (4, 3); (4, 4)]%nat.
Proof.
  intros arith xx uu F1 F2. subst xx uu.
  split; repeat constructor.
  all: cbn -[Fy Beta dt mm Iz aa bb B64.add B64.sub B64.mul B64.div SFopp] in *.
  all: auto 12 with nonfinite.
Qed.

Lemma nonfinite_slip_gives_nonfinite_forces
    (libm_sin libm_cos libm_sqr : spec_float -> spec_float) (B : spec_float * spec_float) :
  nonfinite B.1 = true -> nonfinite B.2 = true ->
  nonfinite (Fy (H := B64_scalar libm_sin libm_cos libm_sqr) B).1 = true
  /\ nonfinite (Fy (H := B64_scalar libm_sin libm_cos libm_sqr) B).2 = true.
Proof.
  intros B1 B2. unfold Fy. cbn [fst snd fmul B64_scalar].
  split; auto with nonfinite.
Qed.

(** X13.  The other singularity, [cos x[4] = 0]: in binary64, when
    [np.cos(x[4])] is a zero or a NaN, the call returns, and both slip
    angles, components 3, 4, 5 of the next state and the entries
    [fx[3][4]], [fx[4][3]], [fx[4][4]] are each an infinity or a NaN,
    whatever the other arguments are. *)
Theorem dynamics_cos_singularity_gives_inf_or_nan
    (libm_sin libm_cos libm_sqr : spec_float -> spec_float)
    (X Y psi V beta omega delta Fx : spec_float) :
  zero_or_nan (libm_cos beta) = true ->
  let arith := B64_scalar libm_sin libm_cos libm_sqr in
  let xx := [X; Y; psi; V; beta; omega] in
  let uu := [delta; Fx] in
  is_Some (dynamics xx uu)
  /\ nonfinite (Beta V beta omega delta).1 = true
  /\ nonfinite (Beta V beta omega delta).2 = true
  /\ Forall (fun j => returns_nonfinite (next_state xx uu ≫= (.!! j)) = true) [3; 4; 5]%nat
  /\ Forall (fun ij => returns_nonfinite (entry ij.1 ij.2 (grad_x xx uu)) = true)
            [(3, 4); (4, 3); (4, 4)]%nat.
Proof.
  intros Hc arith xx uu.
  assert (HB : nonfinite (Beta V beta omega delta).1 = true
               /\ nonfinite (Beta V beta omega delta).2 = true).
  { unfold Beta. cbn [fst snd fadd fsub fmul fdiv fneg fsin fcos arith B64_scalar].
    split; auto 6 with nonfinite. }
  destruct HB as [B1 B2].
  destruct (nonfinite_slip_gives_nonfinite_forces libm_sin libm_cos libm_sqr _ B1 B2) as [F1 F2].
  split; [eexists; reflexivity |].
  do 2 (split; [assumption |]).
  apply nonfinite_forces_spread; assumption.
Qed.

Lemma dynamics_cos_singularity_gives_inf_or_nan_witness :
  let libm := fun x : spec_float => if nonfinite x then S754_nan else B64.of_Z 1 in
  let arith := B64_scalar libm libm libm in
  let xx := [B64.of_Z 0; B64.of_Z 0; B64.of_Z 0; B64.of_Z 10; S754_nan; B64.of_Z 0] in
  let uu := [B64.of_Z 0; B64.of_Z 0] in
  is_Some (dynamics xx uu)
  /\ nonfinite (Beta (B64.of_Z 10) S754_nan (B64.of_Z 0) (B64.of_Z 0)).1 = true
  /\ nonfinite (Beta (B64.of_Z 10) S754_nan (B64.of_Z 0) (B64.of_Z 0)).2 = true
  /\ Forall (fun j => returns_nonfinite (next_state xx uu ≫= (.!! j)) = true) [3; 4; 5]%nat
  /\ Forall (fun ij => returns_nonfinite (entry ij.1 ij.2 (grad_x xx uu)) = true)
            [(3, 4); (4, 3); (4, 4)]%nat.
Proof.
  intros libm.
  apply (dynamics_cos_singularity_gives_inf_or_nan libm libm libm). reflexivity.
Defined.

(** X14.  Non-finite values are carried, not trapped: in binary64, when
    the speed [x[3]] or the yaw rate [x[5]] is an infinity or a NaN, the
    call returns, and both slip angles, components 3, 4, 5 of the next
    state and the entries [fx[3][4]], [fx[4][3]], [fx[4][4]] are each an
    infinity or a NaN. *)
Theorem dynamics_carries_nonfinite_state
    (libm_sin libm_cos libm_sqr : spec_float -> spec_float)
    (X Y psi V beta omega delta Fx : spec_float) :
  nonfinite V = true \/ nonfinite omega = true ->
  let arith := B64_scalar libm_sin libm_cos libm_sqr in
  let xx := [X; Y; psi; V; beta; omega] in
  let uu := [delta; Fx] in
  is_Some (dynamics xx uu)
  /\ nonfinite (Beta V beta omega delta).1 = true
  /\ nonfinite (Beta V beta omega delta).2 = true
  /\ Forall (fun j => returns_nonfinite (next_state xx uu ≫= (.!! j)) = true) [3; 4; 5]%nat
  /\ Forall (fun ij => returns_nonfinite (entry ij.1 ij.2 (grad_x xx uu)) = true)
            [(3, 4); (4, 3); (4, 4)]%nat.
Proof.
  intros Hn arith xx uu.
  assert (HB : nonfinite (Beta V beta omega delta).1 = true
               /\ nonfinite (Beta V beta omega delta).2 = true).
  { unfold Beta. cbn [fst snd fadd fsub fmul fdiv fneg fsin fcos arith B64_scalar].
    destruct Hn as [Hn | Hn]; split; auto 8 with nonfinite. }
  destruct HB as [B1 B2].
  destruct (nonfinite_slip_gives_nonfinite_forces libm_sin libm_cos libm_sqr _ B1 B2) as [F1 F2].
  split; [eexists; reflexivity |].
  do 2 (split; [assumption |]).
  apply nonfinite_forces_spread; assumption.
Qed.

Lemma dynamics_carries_nonfinite_state_witness :
  let libm := fun x : spec_float => if nonfinite x then S754_nan else B64.of_Z 1 in
  let arith := B64_scalar libm libm libm in
  let xx := [B64.of_Z 0; B64.of_Z 0; B64.of_Z 0; B64.of_Z 10; B64.of_Z 0; S754_infinity false] in
  let uu := [B64.of_Z 0; B64.of_Z 0] in
  is_Some (dynamics xx uu)
  /\ nonfinite (Beta (B64.of_Z 10) (B64.of_Z 0) (S754_infinity false) (B64.of_Z 0)).1 = true
  /\ nonfinite (Beta (B64.of_Z 10) (B64.of_Z 0) (S754_infinity false) (B64.of_Z 0)).2 = true
  /\ Forall (fun j => returns_nonfinite (next_state xx uu ≫= (.!! j)) = true) [3; 4; 5]%nat
  /\ Forall (fun ij => returns_nonfinite (entry ij.1 ij.2 (grad_x xx uu)) = true)
            [(3, 4); (4, 3); (4, 4)]%nat.
Proof.
  intros libm.
  apply (dynamics_carries_nonfinite_state libm libm libm). right. reflexivity.
Defined.
